(** * Blendyn: log ingestion, label resolution and interpolation core

    A shallow embedding of the parts of [baselib.py] and [beamlib.py] that
    read the solver's log, keep the entity registry and interpolate the
    time series, together with the properties of the specification that
    concern them.

    Conventions of the embedding.
    - Python exceptions are values of [exn]; a computation that mutates the
      scene data returns its outcome together with the data as mutated up
      to that point ([M]), because a Python exception does not undo the
      assignments made before it.
    - [csv.reader(f, delimiter=' ', skipinitialspace=True)] is taken as the
      list of rows it yields, a row being the list of its fields.
    - Python [float]s are idealised as exact rationals ([Qc]); rounding is
      not modelled.
    - Strings are sequences of 8-bit characters. *)

From Stdlib Require Import List String Ascii ZArith Bool Lia Arith.
From Stdlib Require Import QArith Qcanon Qround Qcabs.
From Stdlib Require Import DecimalString.
Import ListNotations.

#[local] Close Scope Qc_scope.
#[local] Close Scope Q_scope.
#[local] Open Scope string_scope.
#[local] Open Scope Z_scope.

(** ** Python primitives *)

Module Py.

Inductive exn : Type :=
| IOError | FileNotFoundError | StopIteration | TypeError
| IndexError | ValueError | KeyError | NameError.

Inductive res (A : Type) : Type :=
| Ok (a : A)
| Raise (e : exn).
Arguments Ok {A} a.
Arguments Raise {A} e.

Definition rbind {A B} (r : res A) (k : A -> res B) : res B :=
  match r with Ok a => k a | Raise e => Raise e end.

(** [s[-1]]: the last character, [IndexError] on the empty string. *)
Fixpoint last_char (s : string) : option ascii :=
  match s with
  | EmptyString => None
  | String c EmptyString => Some c
  | String _ s' => last_char s'
  end.

(** [s[:-1]]: all but the last character (the empty string stays empty). *)
Fixpoint drop_last (s : string) : string :=
  match s with
  | EmptyString => EmptyString
  | String _ EmptyString => EmptyString
  | String c s' => String c (drop_last s')
  end.

(** [str.isspace] on the 8-bit range Python treats as blank in ASCII. *)
Definition is_space (c : ascii) : bool :=
  let n := nat_of_ascii c in
  ((9 <=? n) && (n <=? 13) || (28 <=? n) && (n <=? 32))%nat.

Fixpoint lstrip (s : string) : string :=
  match s with
  | EmptyString => EmptyString
  | String c s' => if is_space c then lstrip s' else s
  end.

Fixpoint rstrip (s : string) : string :=
  match s with
  | EmptyString => EmptyString
  | String c s' =>
      match rstrip s' with
      | EmptyString => if is_space c then EmptyString else String c EmptyString
      | r => String c r
      end
  end.

Definition strip (s : string) : string := lstrip (rstrip s).

(** [s.find(c)]: index of the first occurrence, [-1] when there is none. *)
Fixpoint find_from (c : ascii) (s : string) (i : Z) : Z :=
  match s with
  | EmptyString => -1
  | String d s' => if Ascii.eqb c d then i else find_from c s' (i + 1)
  end.

Definition find (c : ascii) (s : string) : Z := find_from c s 0.

Fixpoint skipn_str (n : nat) (s : string) : string :=
  match n, s with
  | O, _ => s
  | S _, EmptyString => EmptyString
  | S n', String _ s' => skipn_str n' s'
  end.

Fixpoint firstn_str (n : nat) (s : string) : string :=
  match n, s with
  | O, _ => EmptyString
  | S _, EmptyString => EmptyString
  | S n', String c s' => String c (firstn_str n' s')
  end.

(** A slice bound as Python normalises it: negative bounds count from the
    end, and the result is clamped to [0, len]. *)
Definition clamp_index (len i : Z) : Z :=
  let j := if i <? 0 then i + len else i in
  Z.max 0 (Z.min len j).

(** [s[a:b]] *)
Definition slice (s : string) (a b : Z) : string :=
  let len := Z.of_nat (String.length s) in
  let a' := clamp_index len a in
  let b' := clamp_index len b in
  firstn_str (Z.to_nat (b' - a')) (skipn_str (Z.to_nat a') s).

(** [s[a:]] *)
Definition slice_from (s : string) (a : Z) : string :=
  let len := Z.of_nat (String.length s) in
  skipn_str (Z.to_nat (clamp_index len a)) s.

(** [sub in s] *)
Fixpoint contains (sub s : string) : bool :=
  String.prefix sub s ||
  match s with
  | EmptyString => false
  | String _ s' => contains sub s'
  end.

Definition is_digit (c : ascii) : bool :=
  let n := nat_of_ascii c in ((48 <=? n) && (n <=? 57))%nat.

Definition digit_val (c : ascii) : Z := Z.of_nat (nat_of_ascii c) - 48.

(** Digits of a decimal literal, a single underscore being allowed between
    two digits. [prev_digit] tells whether the previous character was a
    digit. *)
Fixpoint int_digits (s : string) (acc : Z) (prev_digit : bool) : option Z :=
  match s with
  | EmptyString => if prev_digit then Some acc else None
  | String c s' =>
      if is_digit c then int_digits s' (10 * acc + digit_val c) true
      else if Ascii.eqb c "_" && prev_digit then
        match s' with
        | String d _ => if is_digit d then int_digits s' acc false else None
        | EmptyString => None
        end
      else None
  end.

(** [int(s)] on a string, base 10; [None] stands for [ValueError]. *)
Definition int (s : string) : option Z :=
  match strip s with
  | String "-" s' => option_map Z.opp (int_digits s' 0 false)
  | String "+" s' => int_digits s' 0 false
  | s' => int_digits s' 0 false
  end.

(** [str(n)] on an integer. *)
Definition str (n : Z) : string := NilZero.string_of_int (Z.to_int n).

(** Indexing of a list by an integer as Python does it: negative indices
    count from the end, and an index out of range is [IndexError]. *)
Definition index {A} (l : list A) (i : Z) : option A :=
  let len := Z.of_nat (List.length l) in
  let j := if i <? 0 then i + len else i in
  if (0 <=? j) && (j <? len) then nth_error l (Z.to_nat j) else None.

End Py.

Import Py.


(** ** Data model

    The scene data [context.scene.mbdyn]: three collections of records and
    the scalar settings the import reads and writes. A Blender collection
    is an ordered sequence whose items can be reached by position or by
    their [name]; [add()] appends an item holding the default values. *)

Definition row := list string.

Definition vec3 := (Qc * Qc * Qc)%type.

Module Node.
Record t := mk {
  name : string;
  int_label : Z;
  string_label : string;
  parametrization : string;
  output : bool;
  blender_object : string;
  is_imported : bool }.

Definition set_string_label (v : string) (n : t) : t :=
  mk (name n) (int_label n) v (parametrization n) (output n)
     (blender_object n) (is_imported n).
Definition set_parametrization (v : string) (n : t) : t :=
  mk (name n) (int_label n) (string_label n) v (output n)
     (blender_object n) (is_imported n).
Definition set_output (v : bool) (n : t) : t :=
  mk (name n) (int_label n) (string_label n) (parametrization n) v
     (blender_object n) (is_imported n).
Definition set_is_imported (v : bool) (n : t) : t :=
  mk (name n) (int_label n) (string_label n) (parametrization n) (output n)
     (blender_object n) v.
Definition set_identity (nm : string) (l : Z) (n : t) : t :=
  mk nm l (string_label n) (parametrization n) (output n)
     (blender_object n) (is_imported n).
End Node.

Module Elem.
Record t := mk {
  name : string;
  int_label : Z;
  string_label : string;
  type : string;
  mbclass : string;
  nodes : list Z;            (* [nodes[i].int_label] *)
  offsets : list vec3;       (* [offsets[i].value] *)
  import_function : string;
  info_draw : string;
  update : string;
  blender_object : string;
  is_imported : bool }.

Definition set_name (v : string) (e : t) : t :=
  mk v (int_label e) (string_label e) (type e) (mbclass e) (nodes e)
     (offsets e) (import_function e) (info_draw e) (update e)
     (blender_object e) (is_imported e).
Definition set_int_label (v : Z) (e : t) : t :=
  mk (name e) v (string_label e) (type e) (mbclass e) (nodes e)
     (offsets e) (import_function e) (info_draw e) (update e)
     (blender_object e) (is_imported e).
Definition set_string_label (v : string) (e : t) : t :=
  mk (name e) (int_label e) v (type e) (mbclass e) (nodes e)
     (offsets e) (import_function e) (info_draw e) (update e)
     (blender_object e) (is_imported e).
Definition set_type (v : string) (e : t) : t :=
  mk (name e) (int_label e) (string_label e) v (mbclass e) (nodes e)
     (offsets e) (import_function e) (info_draw e) (update e)
     (blender_object e) (is_imported e).
Definition set_mbclass (v : string) (e : t) : t :=
  mk (name e) (int_label e) (string_label e) (type e) v (nodes e)
     (offsets e) (import_function e) (info_draw e) (update e)
     (blender_object e) (is_imported e).
Definition set_nodes (v : list Z) (e : t) : t :=
  mk (name e) (int_label e) (string_label e) (type e) (mbclass e) v
     (offsets e) (import_function e) (info_draw e) (update e)
     (blender_object e) (is_imported e).
Definition set_offsets (v : list vec3) (e : t) : t :=
  mk (name e) (int_label e) (string_label e) (type e) (mbclass e) (nodes e)
     v (import_function e) (info_draw e) (update e)
     (blender_object e) (is_imported e).
Definition set_import_function (v : string) (e : t) : t :=
  mk (name e) (int_label e) (string_label e) (type e) (mbclass e) (nodes e)
     (offsets e) v (info_draw e) (update e)
     (blender_object e) (is_imported e).
Definition set_info_draw (v : string) (e : t) : t :=
  mk (name e) (int_label e) (string_label e) (type e) (mbclass e) (nodes e)
     (offsets e) (import_function e) v (update e)
     (blender_object e) (is_imported e).
Definition set_update (v : string) (e : t) : t :=
  mk (name e) (int_label e) (string_label e) (type e) (mbclass e) (nodes e)
     (offsets e) (import_function e) (info_draw e) v
     (blender_object e) (is_imported e).
Definition set_is_imported (v : bool) (e : t) : t :=
  mk (name e) (int_label e) (string_label e) (type e) (mbclass e) (nodes e)
     (offsets e) (import_function e) (info_draw e) (update e)
     (blender_object e) v.
End Elem.

Module Ref.
Record t := mk {
  name : string;
  int_label : Z;
  string_label : string }.

Definition set_string_label (v : string) (r : t) : t :=
  mk (name r) (int_label r) v.
End Ref.

(** What the Label Resolver needs of a registry record, whatever its
    class: its two labels. *)
Class Labelled (A : Type) := {
  int_label_of : A -> Z;
  string_label_of : A -> string;
  with_string_label : string -> A -> A }.

#[export] Instance Labelled_node : Labelled Node.t :=
  {| int_label_of := Node.int_label;
     string_label_of := Node.string_label;
     with_string_label := Node.set_string_label |}.

#[export] Instance Labelled_elem : Labelled Elem.t :=
  {| int_label_of := Elem.int_label;
     string_label_of := Elem.string_label;
     with_string_label := Elem.set_string_label |}.

#[export] Instance Labelled_ref : Labelled Ref.t :=
  {| int_label_of := Ref.int_label;
     string_label_of := Ref.string_label;
     with_string_label := Ref.set_string_label |}.

Module Mbs.
Record t := mk {
  nodes : list Node.t;
  elems : list Elem.t;
  references : list Ref.t;
  use_netcdf : bool;
  free_labels : bool;
  num_rows : Z;
  num_nodes : Z;
  num_timesteps : Z;
  min_node_import : Z;
  max_node_import : Z;
  min_elem_import : Z;
  max_elem_import : Z;
  is_ready : bool;
  time_step : Qc;
  start_time : Qc;
  end_time : Qc }.

Definition set_nodes (v : list Node.t) (s : t) : t :=
  mk v (elems s) (references s) (use_netcdf s) (free_labels s)
     (num_rows s) (num_nodes s) (num_timesteps s) (min_node_import s)
     (max_node_import s) (min_elem_import s) (max_elem_import s)
     (is_ready s) (time_step s) (start_time s) (end_time s).
Definition set_elems (v : list Elem.t) (s : t) : t :=
  mk (nodes s) v (references s) (use_netcdf s) (free_labels s)
     (num_rows s) (num_nodes s) (num_timesteps s) (min_node_import s)
     (max_node_import s) (min_elem_import s) (max_elem_import s)
     (is_ready s) (time_step s) (start_time s) (end_time s).
Definition set_references (v : list Ref.t) (s : t) : t :=
  mk (nodes s) (elems s) v (use_netcdf s) (free_labels s)
     (num_rows s) (num_nodes s) (num_timesteps s) (min_node_import s)
     (max_node_import s) (min_elem_import s) (max_elem_import s)
     (is_ready s) (time_step s) (start_time s) (end_time s).
Definition set_num_nodes (v : Z) (s : t) : t :=
  mk (nodes s) (elems s) (references s) (use_netcdf s) (free_labels s)
     (num_rows s) v (num_timesteps s) (min_node_import s)
     (max_node_import s) (min_elem_import s) (max_elem_import s)
     (is_ready s) (time_step s) (start_time s) (end_time s).
Definition set_num_timesteps (v : Z) (s : t) : t :=
  mk (nodes s) (elems s) (references s) (use_netcdf s) (free_labels s)
     (num_rows s) (num_nodes s) v (min_node_import s)
     (max_node_import s) (min_elem_import s) (max_elem_import s)
     (is_ready s) (time_step s) (start_time s) (end_time s).
Definition set_node_import (lo hi : Z) (s : t) : t :=
  mk (nodes s) (elems s) (references s) (use_netcdf s) (free_labels s)
     (num_rows s) (num_nodes s) (num_timesteps s) lo hi
     (min_elem_import s) (max_elem_import s)
     (is_ready s) (time_step s) (start_time s) (end_time s).
Definition set_elem_import (lo hi : Z) (s : t) : t :=
  mk (nodes s) (elems s) (references s) (use_netcdf s) (free_labels s)
     (num_rows s) (num_nodes s) (num_timesteps s) (min_node_import s)
     (max_node_import s) lo hi
     (is_ready s) (time_step s) (start_time s) (end_time s).
Definition set_is_ready (v : bool) (s : t) : t :=
  mk (nodes s) (elems s) (references s) (use_netcdf s) (free_labels s)
     (num_rows s) (num_nodes s) (num_timesteps s) (min_node_import s)
     (max_node_import s) (min_elem_import s) (max_elem_import s)
     v (time_step s) (start_time s) (end_time s).
Definition set_time_step (v : Qc) (s : t) : t :=
  mk (nodes s) (elems s) (references s) (use_netcdf s) (free_labels s)
     (num_rows s) (num_nodes s) (num_timesteps s) (min_node_import s)
     (max_node_import s) (min_elem_import s) (max_elem_import s)
     (is_ready s) v (start_time s) (end_time s).
Definition set_start_time (v : Qc) (s : t) : t :=
  mk (nodes s) (elems s) (references s) (use_netcdf s) (free_labels s)
     (num_rows s) (num_nodes s) (num_timesteps s) (min_node_import s)
     (max_node_import s) (min_elem_import s) (max_elem_import s)
     (is_ready s) (time_step s) v (end_time s).
Definition set_end_time (v : Qc) (s : t) : t :=
  mk (nodes s) (elems s) (references s) (use_netcdf s) (free_labels s)
     (num_rows s) (num_nodes s) (num_timesteps s) (min_node_import s)
     (max_node_import s) (min_elem_import s) (max_elem_import s)
     (is_ready s) (time_step s) (start_time s) v.
End Mbs.

(** A NetCDF variable is an array of numbers of some rank, indexed first by
    the time step. *)
#[local] Unset Elimination Schemes.
Inductive ndarray : Type :=
| Scalar (x : Qc)
| Array (items : list ndarray).
#[local] Set Elimination Schemes.

(** [nc.variables]: the variables of the dataset by name. *)
Definition dataset := list (string * ndarray).

(** The files next to the imported one, as the import sees them; [None] is
    a file that cannot be opened. The log is read twice, once through
    [csv.reader] and once line by line. *)
Record files := {
  log_file : option (list row);
  log_lines : option (list string);
  mov_file : option (list row);
  out_file : option (list row);
  rfm_file : option (list row);
  nc_file : option dataset }.

(** ** NetCDF datasets *)

Module NetCDF.

(** [nc.variables[key]], [None] standing for [KeyError]. *)
Fixpoint variables (nc : dataset) (key : string) : option ndarray :=
  match nc with
  | [] => None
  | (k, v) :: nc' => if String.eqb k key then Some v else variables nc' key
  end.

(** [len(a)] and [a[i]] on an array; a number has neither. *)
Definition array_len (a : ndarray) : res Z :=
  match a with
  | Array items => Ok (Z.of_nat (List.length items))
  | Scalar _ => Raise TypeError
  end.

Definition array_get (a : ndarray) (i : Z) : res ndarray :=
  match a with
  | Array items =>
      match Py.index items i with Some x => Ok x | None => Raise IndexError end
  | Scalar _ => Raise IndexError
  end.

Definition as_float (a : ndarray) : res Qc :=
  match a with Scalar x => Ok x | Array _ => Raise TypeError end.

End NetCDF.

Definition with_log (fs : files) (log : list row) : files :=
  {| log_file := Some log; log_lines := log_lines fs;
     mov_file := mov_file fs; out_file := out_file fs;
     rfm_file := rfm_file fs; nc_file := nc_file fs |}.

(** ** Computations on mutable data

    [ST S A] is a computation over data of type [S] that yields an [A] or
    raises; either way it hands on the data as it left them. [M] is the
    case of the scene data. *)

Definition ST (S A : Type) : Type := S -> res A * S.
Definition M (A : Type) : Type := ST Mbs.t A.

Definition ret {S A} (a : A) : ST S A := fun s => (Ok a, s).
Definition raise {S A} (e : exn) : ST S A := fun s => (Raise e, s).
Definition bind {S A B} (m : ST S A) (k : A -> ST S B) : ST S B :=
  fun s => match m s with
           | (Ok a, s') => k a s'
           | (Raise e, s') => (Raise e, s')
           end.
Definition get {S} : ST S S := fun s => (Ok s, s).
Definition modify {S} (f : S -> S) : ST S unit := fun s => (Ok tt, f s).
Definition lift {S A} (e : exn) (o : option A) : ST S A :=
  match o with Some a => ret a | None => raise e end.
Definition lift_res {S A} (r : res A) : ST S A :=
  match r with Ok a => ret a | Raise e => raise e end.

(** [try: m except e: h] *)
Definition catch {S A} (m : ST S A) (handles : exn -> bool) (h : ST S A)
  : ST S A :=
  fun s => match m s with
           | (Raise e, s') => if handles e then h s' else (Raise e, s')
           | r => r
           end.

Declare Scope m_scope.
Delimit Scope m_scope with M.
Notation "x <- m ;; k" := (bind m (fun x => k))
  (at level 61, m at next level, right associativity) : m_scope.
Notation "' pat <- m ;; k" :=
  (bind m (fun x => match x with pat => k end))
  (at level 61, pat pattern, m at next level, right associativity) : m_scope.
Notation "m ;;; k" := (bind m (fun _ => k))
  (at level 61, right associativity) : m_scope.
#[local] Open Scope m_scope.

Definition exn_eqb (a b : exn) : bool :=
  match a, b with
  | IOError, IOError | FileNotFoundError, FileNotFoundError
  | StopIteration, StopIteration | TypeError, TypeError
  | IndexError, IndexError | ValueError, ValueError
  | KeyError, KeyError | NameError, NameError => true
  | _, _ => false
  end.

(** Position of the first item of a collection that satisfies [p]. *)
Fixpoint find_index {A} (p : A -> bool) (l : list A) : option nat :=
  match l with
  | [] => None
  | x :: l' => if p x then Some O else option_map S (find_index p l')
  end.

(** The collection with the item at position [k] replaced by its image. *)
Fixpoint update_at {A} (k : nat) (f : A -> A) (l : list A) : list A :=
  match k, l with
  | _, [] => []
  | O, x :: l' => f x :: l'
  | S k', x :: l' => x :: update_at k' f l'
  end.

(** ** The Log Parser ([baselib.py], [parse_log_file]) *)

Module LogParser.

Inductive status : Type :=
| UNSET                     (* [{''}], the initial value of [ret_val] *)
| FINISHED
| MODEL_INCONSISTENT
| NODES_INCONSISTENT
| ELEMS_INCONSISTENT
| LOG_NOT_FOUND
| ROTATION_ERROR
| NODES_NOT_FOUND
| OUT_NOT_FOUND.

(** What a sub-parser hands back: a boolean, or the empty dictionary [{}]
    by which the node sub-parser signals a rotation parametrization it
    does not support. *)
Inductive pyret : Type :=
| PyBool (b : bool)
| PyEmptyDict.

(** [acc * r] on the consistency accumulator: the product of two booleans
    is an integer, the product with a dictionary is a [TypeError]. *)
Definition accumulate (acc : Z) (r : pyret) : res Z :=
  match r with
  | PyBool b => Ok (acc * Z.b2z b)
  | PyEmptyDict => Raise TypeError
  end.

Definition truthy (z : Z) : bool := negb (z =? 0).

(** *** Recognising a declaration (lines 361-375) *)

(** [min(3, len(rw) - 1)] *)
Definition scan_bound (rw : row) : nat := Nat.min 3 (List.length rw - 1).

(** The inner [while] of the scan, entered with [k = bound - ii]:
    [[
      while (rw[ii][-1] != ':') and (ii < min(3, (len(rw) - 1))):
          ii = ii + 1
          entry = entry + " " + rw[ii]
    ]] *)
Fixpoint scan_entry (k : nat) (rw : row) (ii : nat) (entry : string)
  : res (nat * string) :=
  match nth_error rw ii with
  | None => Raise IndexError
  | Some tok =>
      match last_char tok with
      | None => Raise IndexError
      | Some c =>
          if Ascii.eqb c ":" then Ok (ii, entry)
          else
            match k with
            | O => Ok (ii, entry)
            | S k' =>
                match nth_error rw (S ii) with
                | None => Raise IndexError
                | Some tok' =>
                    scan_entry k' rw (S ii) (entry ++ " " ++ tok')
                end
            end
      end
  end.

(** Whether a field ends in a colon, and the fields up to position [ii]
    joined by blanks: the words by which the specification describes a
    declaration and its entity-kind tag. *)
Definition ends_with_colon (tok : string) : bool :=
  match last_char tok with
  | Some c => Ascii.eqb c ":"
  | None => false
  end.

Definition kind_tag (rw : row) (ii : nat) : string :=
  String.concat " " (firstn (S ii) rw).

(** [entry] after the fields [toks] have been appended to it in turn. *)
Definition extend (entry : string) (toks : list string) : string :=
  fold_left (fun e tok => e ++ " " ++ tok) toks entry.

Inductive action : Type :=
| Skip                      (* "row does not contain an element definition" *)
| NodeDecl                  (* handed to [parse_node] *)
| ElemDecl (kind : string). (* handed to [parse_elements] with this kind *)

(** The action taken on a row, and the value [entry] is left with. *)
Definition classify (rw : row) : res (action * string) :=
  match rw with
  | [] => Raise IndexError
  | tok0 :: _ =>
      rbind (scan_entry (scan_bound rw) rw 0 tok0) (fun '(ii, entry) =>
        if (ii =? scan_bound rw)%nat then Ok (Skip, entry)
        else if String.eqb entry "structural node:" then Ok (NodeDecl, entry)
        else Ok (ElemDecl (drop_last entry), entry))
  end.

(** A row that ends the outer loop once it has been dealt with: the test
    [entry[:-1] != "Symbol table"] fails on the [entry] it leaves. *)
Definition is_terminator (rw : row) : bool :=
  match classify rw with
  | Ok (_, entry) => String.eqb (drop_last entry) "Symbol table"
  | Raise _ => false
  end.

Section Scan.

(** The sub-parsers live in [nodelib.py] and [elementlib.py]. *)
Variable parse_node : row -> M pyret.
Variable parse_elements : string -> row -> M pyret.

(** One turn of the outer loop on the row [rw]: the new accumulators and
    the value of [entry] the loop test sees next. *)
Definition scan_step (rw : row) (bn be : Z) : M (Z * Z * string) :=
  '(act, entry) <- lift_res (classify rw) ;;
  match act with
  | Skip => ret (bn, be, entry)
  | NodeDecl =>
      r <- parse_node rw ;;
      bn' <- lift_res (accumulate bn r) ;;
      ret (bn', be, entry)
  | ElemDecl kind =>
      r <- parse_elements kind rw ;;
      be' <- lift_res (accumulate be r) ;;
      ret (bn, be', entry)
  end.

(** The outer loop over the rows still to be read:
    [[
      entry = ""
      while entry[:-1] != "Symbol table":
          rw = next(reader)
          ...
    ]]
    The test is made on the [entry] of the turn before, so the loop is
    entered at least once. *)
Fixpoint scan_rows (rows : list row) (bn be : Z) : M (Z * Z) :=
  match rows with
  | [] => raise StopIteration
  | rw :: rest =>
      '(bn', be', entry) <- scan_step rw bn be ;;
      if String.eqb (drop_last entry) "Symbol table" then ret (bn', be')
      else scan_rows rest bn' be'
  end.

(** The accumulators and the scene data once the loop has gone through
    all of [rows], when it does: no row of them raises or ends the
    loop. *)
Fixpoint scan_through (rows : list row) (bn be : Z) (s : Mbs.t)
  : option (Z * Z * Mbs.t) :=
  match rows with
  | [] => Some (bn, be, s)
  | rw :: rest =>
      match scan_step rw bn be s with
      | (Ok (bn', be', entry), s') =>
          if String.eqb (drop_last entry) "Symbol table" then None
          else scan_through rest bn' be' s'
      | (Raise _, _) => None
      end
  end.

(** The verdict of lines 378-387. *)
Definition verdict (is_init_nd is_init_ed : bool) (bn be : Z) : status :=
  if (is_init_nd && is_init_ed) || truthy (bn * be) then FINISHED
  else if (negb (truthy bn) && negb is_init_nd)
          && (negb (truthy be) && negb is_init_ed) then MODEL_INCONSISTENT
  else if (negb (truthy bn) && negb is_init_nd) && truthy be
    then NODES_INCONSISTENT
  else if truthy bn && (negb (truthy be) && negb is_init_ed)
    then ELEMS_INCONSISTENT
  else FINISHED.

(** The [try] block of lines 349-400 with its three handlers: the value
    of [ret_val] when it is left. *)
Definition scan_log (log : option (list row))
           (is_init_nd is_init_ed : bool) : M status :=
  match log with
  | None => ret LOG_NOT_FOUND
  | Some rows =>
      fun s =>
        match scan_rows rows 1 1 s with
        | (Ok (bn, be), s') => (Ok (verdict is_init_nd is_init_ed bn be), s')
        | (Raise StopIteration, s') => (Ok UNSET, s')
        | (Raise TypeError, s') => (Ok ROTATION_ERROR, s')
        | (Raise IOError, s') | (Raise FileNotFoundError, s') =>
            (Ok LOG_NOT_FOUND, s')
        | (Raise e, s') => (Raise e, s')
        end
  end.

End Scan.

(** *** Nodes without output ([no_output]) *)

Import NetCDF.

(** [int(rw[i])] *)
Definition row_int (rw : row) (i : nat) : M Z :=
  tok <- lift IndexError (nth_error rw i) ;;
  lift ValueError (Py.int tok).

Definition node_named (nm : string) (n : Node.t) : bool :=
  String.eqb (Node.name n) nm.

Definition node_labelled (l : Z) (n : Node.t) : bool :=
  Node.int_label n =? l.

Definition set_node_output (k : nat) : M unit :=
  modify (fun s =>
    Mbs.set_nodes (update_at k (Node.set_output true) (Mbs.nodes s)) s).

(** The loop of the text branch, on the row [rw] just read and the rows
    [rest] still in the reader; it yields [num_nodes]. *)
Fixpoint count_first_block (rw : row) (rest : list row)
         (first_node num_nodes : Z) : M Z :=
  s <- get ;;
  (match Mbs.nodes s with
   | [] => ret tt           (* the comprehension evaluates nothing *)
   | _ :: _ =>
       l <- row_int rw 0 ;;
       match find_index (node_labelled l) (Mbs.nodes s) with
       | Some k => set_node_output k
       | None => ret tt
       end
   end) ;;;
  match rest with
  | [] => raise StopIteration
  | rw' :: rest' =>
      l' <- row_int rw' 0 ;;
      if l' =? first_node then ret (num_nodes + 1)
      else count_first_block rw' rest' first_node (num_nodes + 1)
  end.

Fixpoint mark_netcdf_output (nc : dataset) (log_nodes : list Z) : M unit :=
  match log_nodes with
  | [] => ret tt
  | node :: rest =>
      (match variables nc ("node.struct." ++ Py.str node ++ ".X") with
       | None => ret tt                       (* KeyError: output disabled *)
       | Some _ =>
           s <- get ;;
           match find_index (node_named ("node_" ++ Py.str node))
                            (Mbs.nodes s) with
           | Some k => set_node_output k
           | None => ret tt                   (* KeyError *)
           end
       end) ;;;
      mark_netcdf_output nc rest
  end.

(** [list(map(lambda x: int(x[5:]), nd.keys()))] *)
Fixpoint node_key_labels (l : list Node.t) : res (list Z) :=
  match l with
  | [] => Ok []
  | n :: l' =>
      match Py.int (slice_from (Node.name n) 5) with
      | None => Raise ValueError
      | Some z => rbind (node_key_labels l') (fun zs => Ok (z :: zs))
      end
  end.

Definition is_exn (e : exn) : exn -> bool := exn_eqb e.

Definition no_output (fs : files) : M unit :=
  s <- get ;;
  if Mbs.use_netcdf s then
    nc <- lift FileNotFoundError (nc_file fs) ;;
    log_nodes <- lift_res (node_key_labels (Mbs.nodes s)) ;;
    mark_netcdf_output nc log_nodes
  else
    rows <- lift FileNotFoundError (mov_file fs) ;;
    catch
      (match rows with
       | [] => raise StopIteration
       | rw :: rest =>
           first_node <- row_int rw 0 ;;
           num_nodes <- count_first_block rw rest first_node 0 ;;
           modify (Mbs.set_num_nodes num_nodes)
       end)
      (is_exn StopIteration) (ret tt).

(** *** The whole pass ([parse_log_file]) *)

(** The smallest and the largest of the labels, as lines 416-423 and
    442-448 compute them. *)
Definition extrema (labels : list Z) : option (Z * Z) :=
  match labels with
  | [] => None
  | l0 :: rest =>
      Some (fold_left
              (fun '(lo, hi) l =>
                 if l <? lo then (l, hi)
                 else if l >? hi then (lo, l)
                 else (lo, hi))
              rest (l0, l0))
  end.

Definition clear_imported : M unit :=
  modify (fun s =>
    Mbs.set_elems (map (Elem.set_is_imported false) (Mbs.elems s))
      (Mbs.set_nodes (map (Node.set_is_imported false) (Mbs.nodes s)) s)).

(** [[nd[var].blender_object for var in nd.keys()
       if nd[var].is_imported == False]], where [nd[var]] is the first item
    of that name. *)
Definition stale_node_objects (nd : list Node.t) : list string :=
  flat_map
    (fun key =>
       match List.find (node_named (Node.name key)) nd with
       | Some n => if Node.is_imported n then []
                   else [Node.blender_object n]
       | None => []
       end) nd.

Definition elem_named (nm : string) (e : Elem.t) : bool :=
  String.eqb (Elem.name e) nm.

Definition stale_elem_objects (ed : list Elem.t) : list string :=
  flat_map
    (fun key =>
       match List.find (elem_named (Elem.name key)) ed with
       | Some e => if Elem.is_imported e then []
                   else [Elem.blender_object e]
       | None => []
       end) ed.

(** [list(filter(None, obj_names))]: the empty names are dropped. *)
Definition nonempty (nm : string) : bool :=
  match nm with EmptyString => false | _ => true end.

Section Pass.

Variable parse_node : row -> M pyret.
Variable parse_elements : string -> row -> M pyret.
(** [float(s)] on a string, [None] standing for [ValueError]. *)
Variable float : string -> option Qc.
(** [parse_reference_frame(rfm_row, rd)] of [rfmlib.py]: it is given
    the references only. *)
Variable parse_reference_frame :
  row -> list Ref.t -> res unit * list Ref.t.

Definition on_references (f : list Ref.t -> res unit * list Ref.t)
  : M unit :=
  fun s => let '(r, rd) := f (Mbs.references s) in
           (r, Mbs.set_references rd s).

(** Lines 411-437; it yields the new [ret_val] and the dataset [nc] if
    the branch bound it. *)
Definition account_nodes (fs : files) : M (status * option dataset) :=
  s <- get ;;
  let nn := Z.of_nat (List.length (Mbs.nodes s)) in
  if nn =? 0 then ret (NODES_NOT_FOUND, None)
  else
    no_output fs ;;;
    s1 <- get ;;
    '(lo, hi) <- lift IndexError
                   (extrema (map Node.int_label (Mbs.nodes s1))) ;;
    modify (Mbs.set_node_import lo hi) ;;;
    nc <- (if Mbs.use_netcdf s1 then
             nc <- lift FileNotFoundError (nc_file fs) ;;
             time <- lift KeyError (variables nc "time") ;;
             n <- lift_res (array_len time) ;;
             modify (Mbs.set_num_timesteps n) ;;;
             ret (Some nc)
           else
             modify (Mbs.set_num_nodes nn) ;;;
             modify (Mbs.set_num_timesteps (Z.quot (Mbs.num_rows s1) nn)) ;;;
             ret None) ;;
    modify (Mbs.set_is_ready true) ;;;
    ret (FINISHED, nc).

(** Lines 453-459 on the rows of the [.out] file. *)
Fixpoint scan_out (rows : list row) (nc : option dataset) : M unit :=
  match rows with
  | [] => raise StopIteration
  | rw :: rest =>
      tok <- lift IndexError (nth_error rw 0) ;;
      if String.eqb tok "Step" then
        match rest with
        | [] => raise StopIteration
        | rw' :: _ =>
            tok' <- lift IndexError (nth_error rw' 3) ;;
            dt <- lift ValueError (float tok') ;;
            modify (Mbs.set_time_step dt) ;;;
            s <- get ;;
            if Mbs.use_netcdf s then
              nc' <- lift NameError nc ;;
              time <- lift KeyError (variables nc' "time") ;;
              t_end <- lift_res (rbind (array_get time (-1)) as_float) ;;
              modify (Mbs.set_end_time t_end) ;;;
              time' <- lift KeyError (variables nc' "time") ;;
              t_start <- lift_res (rbind (array_get time' 0) as_float) ;;
              modify (Mbs.set_start_time t_start)
            else ret tt
        end
      else scan_out rest nc
  end.

Definition read_out (fs : files) (nc : option dataset) (ret_val : status)
  : M status :=
  match out_file fs with
  | None => ret OUT_NOT_FOUND
  | Some rows =>
      catch (scan_out rows nc ;;; ret ret_val)
            (fun e => is_exn StopIteration e || is_exn IOError e)
            (ret ret_val)
  end.

Fixpoint read_rfm_rows (rows : list row) : M unit :=
  match rows with
  | [] => ret tt
  | rfm_row :: rest =>
      (match rfm_row with
       | [] => ret tt
       | tok :: _ =>
           if String.eqb (strip tok) "#" then ret tt
           else on_references (parse_reference_frame rfm_row)
       end) ;;;
      read_rfm_rows rest
  end.

Definition read_rfm (fs : files) : M unit :=
  match rfm_file fs with
  | None => ret tt
  | Some rows =>
      catch (read_rfm_rows rows)
            (fun e => is_exn StopIteration e || is_exn FileNotFoundError e
                      || is_exn IOError e)
            (ret tt)
  end.

(** Lines 403-497: what follows the scan of the declarations. *)
Definition finish_pass (fs : files) : M (status * list string) :=
  s1 <- get ;;
  let obj_names :=
    filter nonempty (stale_node_objects (Mbs.nodes s1)
                     ++ stale_elem_objects (Mbs.elems s1)) in
  '(ret_val, nc) <- account_nodes fs ;;
  s2 <- get ;;
  (match extrema (map Elem.int_label (Mbs.elems s2)) with
   | Some (lo, hi) => modify (Mbs.set_elem_import lo hi)
   | None => ret tt
   end) ;;;
  ret_val' <- read_out fs nc ret_val ;;
  read_rfm fs ;;;
  s3 <- get ;;
  (if Mbs.use_netcdf s3 then ret tt
   else modify (Mbs.set_end_time
                  ((Q2Qc (inject_Z (Mbs.num_timesteps s3 - 1)))
                   * Mbs.time_step s3)%Qc)) ;;;
  ret (ret_val', obj_names).

(** The value [ret_val] has when the scan is left is not used: each
    path of [finish_pass] assigns it anew before it is returned. *)
Definition parse_log_file (fs : files) : M (status * list string) :=
  s0 <- get ;;
  let is_init_nd := (List.length (Mbs.nodes s0) =? 0)%nat in
  let is_init_ed := (List.length (Mbs.elems s0) =? 0)%nat in
  clear_imported ;;;
  _ <- scan_log parse_node parse_elements (log_file fs)
                is_init_nd is_init_ed ;;
  finish_pass fs.

End Pass.

(** *** The node sub-parser *)

Section NodeParser.

(** The item [nd.add()] creates. *)
Variable default_node : Node.t.
(** The label and the parametrization fields of a declaration record. *)
Variable node_fields : row -> option (string * string).
(** The tag of a parametrization the import supports, by its spelling in
    the log. *)
Variable parametrization_of : string -> option string.

Definition touch_node (tag : string) (n : Node.t) : Node.t :=
  Node.set_is_imported true (Node.set_parametrization tag n).

(** Modelled from the spec: the node sub-parser [parse_node] of
    [nodelib.py], which is not among the sources. The spec has it create
    a node on first encounter and update it in place when a node of that
    integer label exists, set the imported flag of a node it meets, hand
    back false when it had to create the node and true when it found it,
    and refuse a parametrization outside the supported set; that the
    refusal is the value [{}] is told by the handler at line 396. The
    positions of the fields in the record and the spelling of the
    parametrizations are left open by the spec and kept as parameters. *)
Definition parse_node (rw : row) : M pyret :=
  '(lab, par) <- lift IndexError (node_fields rw) ;;
  match parametrization_of par with
  | None => ret PyEmptyDict
  | Some tag =>
      l <- lift ValueError (Py.int lab) ;;
      s <- get ;;
      match find_index (node_labelled l) (Mbs.nodes s) with
      | Some k =>
          modify (Mbs.set_nodes
                    (update_at k (touch_node tag) (Mbs.nodes s))) ;;;
          ret (PyBool true)
      | None =>
          modify (Mbs.set_nodes
                    (Mbs.nodes s
                     ++ [touch_node tag
                           (Node.set_identity ("node_" ++ Py.str l) l
                                              default_node)])) ;;;
          ret (PyBool false)
      end
  end.

End NodeParser.

End LogParser.

(** ** The Label Resolver ([baselib.py], [assign_labels]) *)

Module LabelResolver.

Inductive status : Type :=
| LABELS_UPDATED
| NOTHING_DONE
| FILE_NOT_FOUND.

Definition set_strings_any : list string :=
  ["  const integer"; "  integer"].

Definition set_strings_node : list string :=
  ["  const integer Node_"; "  integer Node_";
   "  const integer node_"; "  integer node_";
   "  const integer NODE_"; "  integer NODE_"].

(** The second and third literals of the source are not separated by a
    comma, so Python joins them into one string. *)
Definition set_strings_joint : list string :=
  ["  const integer Joint_"; "  integer Joint_  const integer joint_";
   "  integer joint_";
   "  const integer JOINT_"; "  integer JOINT_"].

Definition set_strings_beam : list string :=
  ["  const integer Beam_"; "  integer Beam_";
   "  const integer beam_"; "  integer beam_";
   "  const integer BEAM_"; "  integer BEAM_"].

Definition set_strings_refs : list string :=
  ["  const integer Ref_"; "  integer Ref_";
   "  const integer ref_"; "  integer ref_";
   "  const integer REF_"; "  integer REF_";
   "  const integer Reference_"; "  integer Reference_";
   "  const integer reference_"; "  integer reference_";
   "  const integer REFERENCE_"; "  integer REFERENCE_"].

Definition strlen (s : string) : Z := Z.of_nat (String.length s).

Section AssignLabel.

Context {A : Type} `{Labelled A}.

(** The [for item in the_dict] loop of [assign_label]: the first item
    of that integer label is given the string label if it has another
    one; the flag tells whether it was. *)
Fixpoint relabel (label_int : Z) (label_str : string) (the_dict : list A)
  : bool * list A :=
  match the_dict with
  | [] => (false, [])
  | item :: rest =>
      if int_label_of item =? label_int then
        if negb (String.eqb (string_label_of item) label_str)
        then (true, with_string_label label_str item :: rest)
        else (false, the_dict)
      else
        let '(changed, rest') := relabel label_int label_str rest in
        (changed, item :: rest')
  end.

Definition assign_label (free_labels : bool)
           (line entity_type set_string : string)
  : ST (list A) bool :=
  let line_str := rstrip line in
  let eq_idx := Py.find "=" line_str + 1 in
  label_int <- lift ValueError (Py.int (strip (slice_from line_str eq_idx))) ;;
  let label_str :=
    if free_labels then
      strip (slice line_str (strlen set_string) (eq_idx - 1))
    else
      strip (slice line_str
                   (strlen set_string - strlen entity_type - 1)
                   (eq_idx - 1)) in
  the_dict <- get ;;
  let '(changed, the_dict') := relabel label_int label_str the_dict in
  modify (fun _ => the_dict') ;;;
  ret changed.

End AssignLabel.

(** The integer a line assigns: what follows its first [=] sign. *)
Definition line_value (line : string) : option Z :=
  let line_str := rstrip line in
  Py.int (strip (slice_from line_str (Py.find "=" line_str + 1))).

(** The name a line gives: what stands between the [set_string], less the
    entity prefix in standard mode, and the [=] sign. *)
Definition label_text (free_labels : bool)
           (line entity_type set_string : string) : string :=
  let line_str := rstrip line in
  let eq_idx := Py.find "=" line_str + 1 in
  if free_labels then
    strip (slice line_str (strlen set_string) (eq_idx - 1))
  else
    strip (slice line_str
                 (strlen set_string - strlen entity_type - 1)
                 (eq_idx - 1)).

(** Whether a record has the integer label [l]. *)
Definition is_labelled (l : Z) {A} `{Labelled A} (a : A) : bool :=
  int_label_of a =? l.

(** A computation on one of the collections, within the scene data. *)
Definition on_nodes {A} (m : ST (list Node.t) A) : M A :=
  fun s => let '(r, nd) := m (Mbs.nodes s) in (r, Mbs.set_nodes nd s).
Definition on_elems {A} (m : ST (list Elem.t) A) : M A :=
  fun s => let '(r, ed) := m (Mbs.elems s) in (r, Mbs.set_elems ed s).
Definition on_refs {A} (m : ST (list Ref.t) A) : M A :=
  fun s => let '(r, rd) := m (Mbs.references s) in
           (r, Mbs.set_references rd s).

(** The first [set_string] of the list that occurs in the line. *)
Definition first_match (set_strings : list string) (line : string)
  : option string :=
  List.find (fun set_string => contains set_string line) set_strings.

(** [labels_changed += b] *)
Definition bump (labels_changed : Z) (b : bool) : Z :=
  labels_changed + Z.b2z b.

(** One line of the log in free-label mode (lines 611-617). *)
Definition resolve_free (line : string) (labels_changed : Z) : M Z :=
  match first_match set_strings_any line with
  | Some set_string =>
      b1 <- on_nodes (assign_label true line "" set_string) ;;
      b2 <- on_elems (assign_label true line "" set_string) ;;
      b3 <- on_refs (assign_label true line "" set_string) ;;
      ret (bump (bump (bump labels_changed b1) b2) b3)
  | None => ret labels_changed
  end.

(** One line of the log in standard mode (lines 621-644). *)
Definition resolve_standard (line : string) (labels_changed : Z) : M Z :=
  match first_match set_strings_node line with
  | Some set_string =>
      b <- on_nodes (assign_label false line "node" set_string) ;;
      ret (bump labels_changed b)
  | None =>
  match first_match set_strings_joint line with
  | Some set_string =>
      b <- on_elems (assign_label false line "joint" set_string) ;;
      ret (bump labels_changed b)
  | None =>
  match first_match set_strings_beam line with
  | Some set_string =>
      b <- on_elems (assign_label false line "beam" set_string) ;;
      ret (bump labels_changed b)
  | None =>
  match first_match set_strings_refs line with
  | Some set_string =>
      b <- on_refs (assign_label false line "ref" set_string) ;;
      ret (bump labels_changed b)
  | None => ret labels_changed
  end end end end.

Fixpoint resolve_lines (free_labels : bool) (lines : list string)
         (labels_changed : Z) : M Z :=
  match lines with
  | [] => ret labels_changed
  | line :: rest =>
      labels_changed' <-
        (if free_labels then resolve_free line labels_changed
         else resolve_standard line labels_changed) ;;
      resolve_lines free_labels rest labels_changed'
  end.

Definition assign_labels (fs : files) : M status :=
  s <- get ;;
  match log_lines fs with
  | None => ret FILE_NOT_FOUND
  | Some lines =>
      labels_changed <- resolve_lines (Mbs.free_labels s) lines 0 ;;
      if negb (labels_changed =? 0) then ret LABELS_UPDATED
      else ret NOTHING_DONE
  end.

(** The scene data after the lines [lines] of the log have been dealt
    with. *)
Definition labels_after (lines : list string) (s : Mbs.t) : Mbs.t :=
  snd (resolve_lines (Mbs.free_labels s) lines 0 s).

(** A record after the pass, against the same record before it: it is
    the same, or it is the same but for its string label, and some line
    of the log assigns its integer label. *)
Definition annotated {A} `{Labelled A} (lines : list string) (a b : A)
  : Prop :=
  b = a \/
  exists line label_str,
    In line lines /\ line_value line = Some (int_label_of a)
    /\ b = with_string_label label_str a.

(** The scene data after the pass, against the data before it: the same
    records in the same order, annotated, and nothing else touched. *)
Definition annotates (lines : list string) (s s' : Mbs.t) : Prop :=
  exists nd ed rd,
    s' = Mbs.set_references rd (Mbs.set_elems ed (Mbs.set_nodes nd s))
    /\ Forall2 (annotated lines) (Mbs.nodes s) nd
    /\ Forall2 (annotated lines) (Mbs.elems s) ed
    /\ Forall2 (annotated lines) (Mbs.references s) rd.

End LabelResolver.

(** ** Beam declarations ([beamlib.py], [parse_beam3]) *)

Module BeamLib.

Section Beam.

(** [float(s)] on a string, [None] standing for [ValueError]. *)
Variable float : string -> option Qc.
(** The item [ed.add()] creates, and the values [nodes.add()] and
    [offsets.add()] start with. *)
Variable default_elem : Elem.t.
Variable default_node_ref : Z.
Variable default_offset : vec3.

Definition E (A : Type) : Type := ST (list Elem.t) A.

(** [rw[i]], [int(rw[i])] and [Vector((float(rw[i]), float(rw[i+1]),
    float(rw[i+2])))] *)
Definition field (rw : row) (i : nat) : E string :=
  lift IndexError (nth_error rw i).
Definition int_field (rw : row) (i : nat) : E Z :=
  tok <- field rw i ;; lift ValueError (Py.int tok).
Definition float_field (rw : row) (i : nat) : E Qc :=
  tok <- field rw i ;; lift ValueError (float tok).
Definition vector_field (rw : row) (i : nat) : E vec3 :=
  x <- float_field rw i ;;
  y <- float_field rw (i + 1) ;;
  z <- float_field rw (i + 2) ;;
  ret (x, y, z).

(** [el.f = v] on the element at position [k]. *)
Definition set_field (k : nat) (f : Elem.t -> Elem.t) : E unit :=
  modify (update_at k f).

(** [el.nodes[i].int_label = v]: the right-hand side [v] is evaluated
    first, then the item is looked up. *)
Definition set_node (k i : nat) (v : E Z) : E unit :=
  x <- v ;;
  ed <- get ;;
  el <- lift IndexError (nth_error ed k) ;;
  if (i <? List.length (Elem.nodes el))%nat then
    set_field k (fun e =>
      Elem.set_nodes (update_at i (fun _ => x) (Elem.nodes e)) e)
  else raise IndexError.

(** [el.offsets[i].value = v] *)
Definition set_offset (k i : nat) (v : E vec3) : E unit :=
  x <- v ;;
  ed <- get ;;
  el <- lift IndexError (nth_error ed k) ;;
  if (i <? List.length (Elem.offsets el))%nat then
    set_field k (fun e =>
      Elem.set_offsets (update_at i (fun _ => x) (Elem.offsets e)) e)
  else raise IndexError.

(** [el.nodes.add()] and [el.offsets.add()] *)
Definition add_node (k : nat) : E unit :=
  set_field k (fun e =>
    Elem.set_nodes (Elem.nodes e ++ [default_node_ref]) e).
Definition add_offset (k : nat) : E unit :=
  set_field k (fun e =>
    Elem.set_offsets (Elem.offsets e ++ [default_offset]) e).

Definition elem_named (nm : string) (e : Elem.t) : bool :=
  String.eqb (Elem.name e) nm.

(** What the fields of a record read as, when they do. *)
Definition parsed_int (rw : row) (i : nat) : option Z :=
  match nth_error rw i with
  | Some tok => Py.int tok
  | None => None
  end.

Definition parsed_float (rw : row) (i : nat) : option Qc :=
  match nth_error rw i with
  | Some tok => float tok
  | None => None
  end.

Definition parsed_vector (rw : row) (i : nat) : option vec3 :=
  match parsed_float rw i, parsed_float rw (i + 1),
        parsed_float rw (i + 2) with
  | Some x, Some y, Some z => Some (x, y, z)
  | _, _, _ => None
  end.

(** The collection with the element at position [k] replaced. *)
Definition with_elem (k : nat) (el : Elem.t) (ed : list Elem.t)
  : list Elem.t :=
  update_at k (fun _ => el) ed.

(** The body of the [try] once [ed['beam3_' + rw[1]]] is found at
    position [k] (lines 103-117). *)
Definition update_beam3_entry (rw : row) (k : nat) : E bool :=
  set_field k (Elem.set_is_imported false) ;;;
  set_node k 0 (int_field rw 2) ;;;
  set_node k 1 (int_field rw 6) ;;;
  set_node k 2 (int_field rw 10) ;;;
  set_offset k 0 (vector_field rw 3) ;;;
  set_offset k 1 (vector_field rw 7) ;;;
  set_offset k 1 (vector_field rw 11) ;;;
  set_field k (Elem.set_mbclass "elem.beam") ;;;
  set_field k (Elem.set_is_imported true) ;;;
  ret true.

(** The [except KeyError] branch (lines 121-153); the new element is the
    last one, at position [k]. *)
Definition create_beam3_entry (rw : row) : E bool :=
  ed <- get ;;
  let k := List.length ed in
  modify (fun ed : list Elem.t => (ed ++ [default_elem])%list) ;;;
  set_field k (Elem.set_mbclass "elem.beam") ;;;
  set_field k (Elem.set_type "beam3") ;;;
  l <- int_field rw 1 ;;
  set_field k (Elem.set_int_label l) ;;;
  add_node k ;;;
  set_node k 0 (int_field rw 2) ;;;
  add_offset k ;;;
  set_offset k 0 (vector_field rw 3) ;;;
  add_node k ;;;
  set_node k 1 (int_field rw 6) ;;;
  add_offset k ;;;
  set_offset k 1 (vector_field rw 7) ;;;
  add_node k ;;;
  set_node k 2 (int_field rw 10) ;;;
  add_offset k ;;;
  set_offset k 2 (vector_field rw 11) ;;;
  set_field k (Elem.set_import_function "blendyn.import_beam3") ;;;
  set_field k (Elem.set_info_draw "beam3_info_draw") ;;;
  set_field k (Elem.set_update "update_beam3") ;;;
  set_field k (fun e =>
    Elem.set_name (Elem.type e ++ "_" ++ Py.str (Elem.int_label e)) e) ;;;
  set_field k (Elem.set_is_imported true) ;;;
  ret false.

Definition parse_beam3 (rw : row) : E bool :=
  key <- field rw 1 ;;
  ed <- get ;;
  match find_index (elem_named ("beam3_" ++ key)) ed with
  | Some k => update_beam3_entry rw k
  | None => create_beam3_entry rw
  end.

End Beam.

End BeamLib.

(** ** The Motion Interpolator ([baselib.py]) *)

Module Interp.

Import NetCDF.

#[local] Open Scope Qc_scope.

Definition Qc_of_Z (z : Z) : Qc := Q2Qc (inject_Z z).

(** [np.ceil(x)] and [int(x)] on a float. *)
Definition ceil (x : Qc) : Z := Qceiling x.
Definition trunc (x : Qc) : Z := Z.quot (Qnum x) (Zpos (Qden x)).

(** [frac = np.ceil(t) - t] *)
Definition bracket_weight (t : Qc) : Qc := Qc_of_Z (ceil t) - t.

(** *** The text backend (lines 932 and 1102) *)

(** [c * a] on a NumPy array of rank one. *)
Definition np_scale (c : Qc) (a : list Qc) : list Qc := map (Qcmult c) a.

Fixpoint zip_add (a b : list Qc) : list Qc :=
  match a, b with
  | x :: a', y :: b' => (x + y) :: zip_add a' b'
  | _, _ => []
  end.

(** [a + b] on NumPy arrays of rank one; an array of one item is spread
    over the other, and other unequal lengths are a [ValueError]. *)
Definition np_add (a b : list Qc) : option (list Qc) :=
  if (List.length a =? List.length b)%nat then Some (zip_add a b)
  else match a, b with
       | x :: nil, _ => Some (map (Qcplus x) b)
       | _, y :: nil => Some (map (fun x => x + y) a)
       | _, _ => None
       end.

(** [answer = frac*first_mov[ndx] + (1 - frac)*second_mov[ndx]] *)
Definition interpolate_rows (frac : Qc) (first second : list Qc)
  : option (list Qc) :=
  np_add (np_scale frac first) (np_scale (1 - frac) second).

(** *** The NetCDF backend ([netcdf_helper]) *)

(** [Vector(a)] on an array: a sequence of at least two numbers. *)
Fixpoint scalars (items : list ndarray) : option (list Qc) :=
  match items with
  | [] => Some []
  | Scalar x :: rest => option_map (cons x) (scalars rest)
  | Array _ :: _ => None
  end.

Definition to_vector (a : ndarray) : res (list Qc) :=
  match a with
  | Array items =>
      match scalars items with
      | Some v => if (2 <=? List.length v)%nat then Ok v else Raise ValueError
      | None => Raise TypeError
      end
  | Scalar _ => Raise TypeError
  end.

(** [Vector.lerp(other, factor)] of mathutils: the two vectors weighted by
    [1 - factor] and [factor]; their sizes must agree. *)
Definition lerp (self other : list Qc) (factor : Qc) : res (list Qc) :=
  if (List.length self =? List.length other)%nat
  then Ok (zip_add (np_scale (1 - factor) self) (np_scale factor other))
  else Raise ValueError.

(** [nc.variables[key][i]] *)
Definition sample (nc : dataset) (key : string) (i : Z) : res ndarray :=
  match variables nc key with
  | None => Raise KeyError
  | Some a => array_get a i
  end.

(** [netcdf_helper(nc, scene, key)], with [scene.frame_current] and
    [scene.mbdyn.load_frequency] for the scene. *)
Definition netcdf_helper (nc : dataset) (frame_current : Z)
           (load_frequency : Qc) (key : string) : res (list Qc) :=
  let tdx := Qc_of_Z frame_current * load_frequency in
  let frac := Qc_of_Z (ceil tdx) - tdx in
  rbind (rbind (sample nc key (trunc tdx)) to_vector) (fun first =>
  rbind (rbind (sample nc key (ceil tdx)) to_vector) (fun second =>
  lerp first second (1 - frac))).

(** *** Rotation matrices ([netcdf_helper_quat]) *)

Definition quat := (Qc * Qc * Qc * Qc)%type.
Definition matrix := list (list Qc).

(** [Matrix(a)] on an array of rank two. *)
Fixpoint rows_of (items : list ndarray) : res matrix :=
  match items with
  | [] => Ok []
  | Array r :: rest =>
      match scalars r with
      | Some v => rbind (rows_of rest) (fun m => Ok (v :: m))
      | None => Raise TypeError
      end
  | Scalar _ :: _ => Raise TypeError
  end.

Definition to_matrix (a : ndarray) : res matrix :=
  match a with
  | Array items => rows_of items
  | Scalar _ => Raise TypeError
  end.

Fixpoint cons_columns (r : list Qc) (m : matrix) : matrix :=
  match r, m with
  | x :: r', c :: m' => (x :: c) :: cons_columns r' m'
  | _, _ => []
  end.

(** [Matrix.transposed()] *)
Fixpoint transposed (m : matrix) : matrix :=
  match m with
  | [] => []
  | r :: nil => map (fun x => x :: nil) r
  | r :: m' => cons_columns r (transposed m')
  end.

Definition dot (a b : quat) : Qc :=
  let '(a0, a1, a2, a3) := a in
  let '(b0, b1, b2, b3) := b in
  a0 * b0 + a1 * b1 + a2 * b2 + a3 * b3.

Definition negate (a : quat) : quat :=
  let '(a0, a1, a2, a3) := a in (- a0, - a1, - a2, - a3).

(** [w0 * a + w1 * b] *)
Definition blend (w0 w1 : Qc) (a b : quat) : quat :=
  let '(a0, a1, a2, a3) := a in
  let '(b0, b1, b2, b3) := b in
  (w0 * a0 + w1 * b0, w0 * a1 + w1 * b1,
   w0 * a2 + w1 * b2, w0 * a3 + w1 * b3).

Section Slerp.

(** The C library's sine, arc cosine and square root on floats, and the
    conversion [Matrix.to_quaternion()] of mathutils. *)
Variables sinf acosf sqrtf : Qc -> Qc.
Variable to_quaternion : matrix -> quat.

Definition eps : Qc := Q2Qc (1 # 10000).

(** The two weights of the interpolation at parameter [t] between unit
    quaternions whose dot product is [cosom]; nearly aligned quaternions
    are blended linearly. *)
Definition interp_dot_slerp (t cosom : Qc) : Qc * Qc :=
  if Qclt_le_dec (Qcabs cosom) (1 - eps) then
    let omega := acosf cosom in
    let sinom := sinf omega in
    (sinf ((1 - t) * omega) / sinom, sinf (t * omega) / sinom)
  else (1 - t, t).

(** Modelled from the spec: [Quaternion.slerp(other, factor)] of
    mathutils, which is not part of the sources. The spec asks for the
    spherical linear interpolation with the sign of the quaternion
    chosen for the shorter arc; the definition follows the routine of
    Blender's math library behind the method, which negates the first
    quaternion when the dot product is negative, and refuses a factor
    outside [0, 1]. *)
Definition slerp (self other : quat) (factor : Qc) : res quat :=
  if Qclt_le_dec factor 0 then Raise ValueError
  else if Qclt_le_dec 1 factor then Raise ValueError
  else
    let cosom := dot self other in
    let '(q, cosom') :=
      if Qclt_le_dec cosom 0 then (negate self, - cosom)
      else (self, cosom) in
    let '(w0, w1) := interp_dot_slerp factor cosom' in
    Ok (blend w0 w1 q other).

(** [netcdf_helper_quat(nc, scene, key)] *)
Definition netcdf_helper_quat (nc : dataset) (frame_current : Z)
           (load_frequency : Qc) (key : string) : res quat :=
  let tdx := Qc_of_Z frame_current * load_frequency in
  let frac := Qc_of_Z (ceil tdx) - tdx in
  rbind (rbind (sample nc key (trunc tdx)) to_matrix) (fun m_first =>
  let q_first := to_quaternion (transposed m_first) in
  rbind (rbind (sample nc key (ceil tdx)) to_matrix) (fun m_second =>
  let q_second := to_quaternion (transposed m_second) in
  slerp q_first q_second (1 - frac))).

(** The angle of the rotation that takes one orientation to the other;
    a quaternion and its opposite stand for the same orientation. *)
Definition angle_between (p q : quat) : Qc :=
  Qc_of_Z 2 * acosf (Qcabs (dot p q) / (sqrtf (dot p p) * sqrtf (dot q q))).

End Slerp.

End Interp.

(** ** Sample data

    A registry, logs and files on which the statements below are run. The
    layout of a node declaration is that of the solver's log,
    [structural node: <label> <x> <y> <z> <parametrization> ...]. *)

Module Samples.

Import LogParser.

Definition node_fields (rw : row) : option (string * string) :=
  match nth_error rw 2, nth_error rw 6 with
  | Some lab, Some par => Some (lab, par)
  | _, _ => None
  end.

Definition parametrization_of (par : string) : option string :=
  if String.eqb par "phi" then Some "PHI"
  else if String.eqb par "euler123" then Some "EULER123"
  else if String.eqb par "euler213" then Some "EULER213"
  else if String.eqb par "euler321" then Some "EULER321"
  else if String.eqb par "mat" then Some "MATRIX"
  else None.

Definition blank_node : Node.t := Node.mk "" 0 "none" "" false "none" false.

Definition parse_node : row -> M pyret :=
  LogParser.parse_node blank_node node_fields parametrization_of.

(** An element sub-parser that knows no kind. *)
Definition parse_elements (kind : string) (rw : row) : M pyret :=
  ret (PyBool true).

Definition float (tok : string) : option Qc := None.

Definition parse_reference_frame (rw : row) (rd : list Ref.t)
  : res unit * list Ref.t := (Ok tt, rd).

Definition parse_log_file : files -> M (status * list string) :=
  LogParser.parse_log_file parse_node parse_elements float
                           parse_reference_frame.

Definition node_decl (lab par : string) : row :=
  ["structural"; "node:"; lab; "0."; "0."; "0."; par; "0."; "0."; "0."].

Definition symbol_table : row := ["Symbol"; "table:"].

Definition known_node (l : Z) (obj : string) : Node.t :=
  Node.mk ("node_" ++ Py.str l) l "none" "PHI" true obj true.

Definition scene (nd : list Node.t) (rows : Z) : Mbs.t :=
  Mbs.mk nd [] [] false false rows 0 0 0 0 0 0 false
         (Q2Qc 0) (Q2Qc 0) (Q2Qc 0).

Definition text_files (log mov : list row) : files :=
  {| log_file := Some log; log_lines := None; mov_file := Some mov;
     out_file := Some []; rfm_file := None; nc_file := None |}.

(** A registry left by an import of the nodes 1, 2 and 3, and a log that
    declares 1, 2 and 4. *)
Definition scene_123 : Mbs.t :=
  scene [known_node 1 "Node1"; known_node 2 "Node2"; known_node 3 "Node3"] 8.

Definition log_124 : list row :=
  [node_decl "1" "phi"; node_decl "2" "phi"; node_decl "4" "phi";
   symbol_table].

Definition mov_124 : list row :=
  [["1"]; ["2"]; ["4"]; ["1"]; ["2"]; ["4"]].

(** A log whose second declaration has a parametrization that is not
    supported. *)
Definition log_313 : list row :=
  [node_decl "5" "phi"; node_decl "1" "euler313"; node_decl "6" "phi";
   symbol_table].

(** A first import of five nodes whose output file has fifty rows. *)
Definition log_5 : list row :=
  [node_decl "1" "phi"; node_decl "2" "phi"; node_decl "3" "phi";
   node_decl "4" "phi"; node_decl "5" "phi"; symbol_table].

Definition mov_5 : list row :=
  [["1"]; ["2"]; ["3"]; ["4"]; ["5"]; ["1"]].

(** A log in which the words [Symbol table] stand without the colon. *)
Definition log_literal : list row :=
  [["Symbol"; "table"]; node_decl "7" "phi"; symbol_table].

(** The line of the symbol table that names node 17, as the log has it
    (two leading blanks, end of line), and the same words without the
    blanks. *)
Definition newline : string := String "010" "".

Definition label_line : string := "  integer Node_42 = 17" ++ newline.

Definition label_line_bare : string := "integer Node_42 = 17" ++ newline.

(** A line the resolver recognises whose right-hand side is no integer. *)
Definition label_line_real : string := "  integer Node_42 = 1.5" ++ newline.

Definition label_files (lines : list string) : files :=
  {| log_file := None; log_lines := Some lines; mov_file := None;
     out_file := None; rfm_file := None; nc_file := None |}.

Definition scene_17 : Mbs.t :=
  scene [known_node 3 "Node3"; known_node 17 "Node17"] 0.

(** A reader of floats that knows the integer literals only. *)
Definition float_of_int (tok : string) : option Qc :=
  option_map (fun z => Q2Qc (inject_Z z)) (Py.int tok).

Definition blank_elem : Elem.t :=
  Elem.mk "" 0 "none" "" "" [] [] "" "" "" "none" false.

Definition zero3 : vec3 := (Q2Qc 0, Q2Qc 0, Q2Qc 0).

Definition parse_beam3 : row -> ST (list Elem.t) bool :=
  BeamLib.parse_beam3 float_of_int blank_elem 0 zero3.

Definition qz (z : Z) : Qc := Q2Qc (inject_Z z).

(** The element the first of the two declarations below creates. *)
Definition beam3_7 : Elem.t :=
  Elem.mk "beam3_7" 7 "none" "beam3" "elem.beam" [1; 2; 3]
          [(qz 1, qz 0, qz 0); (qz 2, qz 0, qz 0); (qz 3, qz 0, qz 0)]
          "blendyn.import_beam3" "beam3_info_draw" "update_beam3" "none" true.

(** The declaration of a beam of three nodes, and the same beam declared
    anew with other offsets. *)
Definition beam3_decl : row :=
  ["beam3:"; "7"; "1"; "1"; "0"; "0"; "2"; "2"; "0"; "0"; "3"; "3"; "0"; "0"].

Definition beam3_decl_moved : row :=
  ["beam3:"; "7"; "1"; "4"; "0"; "0"; "2"; "5"; "0"; "0"; "3"; "6"; "0"; "0"].

(** Two samples of the orientation of a node: no rotation, then half a
    turn about the first axis. *)
Definition matrix_array (m : list (list Z)) : ndarray :=
  Array (map (fun r => Array (map (fun z => Scalar (qz z)) r)) m).

Definition no_turn : ndarray :=
  matrix_array [[1; 0; 0]; [0; 1; 0]; [0; 0; 1]].

Definition half_turn : ndarray :=
  matrix_array [[1; 0; 0]; [0; -1; 0]; [0; 0; -1]].

Definition rotations : dataset :=
  [("node.struct.1.R", Array [no_turn; half_turn])].

(** Rational stand-ins for the sine, the arc cosine and the square root,
    from the first terms of their series. *)
Definition sinf (x : Qc) : Qc := (x - x * x * x / qz 6)%Qc.
Definition acosf (x : Qc) : Qc := (Q2Qc (11 # 7) - x)%Qc.
Definition sqrtf (x : Qc) : Qc := ((qz 1 + x) / qz 2)%Qc.

(** [Matrix.to_quaternion()] on the rotations that are half turns about
    the axes, where it is rational. *)
Definition to_quaternion (m : Interp.matrix) : Interp.quat :=
  match m with
  | [[a; _; _]; [_; b; _]; [_; _; _]] =>
      if Qc_eq_dec a (qz 1) then
        if Qc_eq_dec b (qz 1) then (qz 1, qz 0, qz 0, qz 0)
        else (qz 0, qz 1, qz 0, qz 0)
      else
        if Qc_eq_dec b (qz 1) then (qz 0, qz 0, qz 1, qz 0)
        else (qz 0, qz 0, qz 0, qz 1)
  | _ => (qz 1, qz 0, qz 0, qz 0)
  end.

End Samples.
Module LogParserFacts.

Import NetCDF LogParser.

Lemma last_char_app (a b : string) :
  b <> "" -> last_char (a ++ b) = last_char b.
Proof.
  intros Hb. induction a as [|c a IH]; [reflexivity|].
  cbn [append last_char]. rewrite IH.
  destruct (a ++ b) eqn:E; [|reflexivity].
  destruct a; cbn in E; [subst b; congruence | discriminate].
Qed.

Lemma drop_last_restore (s : string) (c : ascii) :
  last_char s = Some c -> drop_last s ++ String c "" = s.
Proof.
  induction s as [|d s IH]; [discriminate|].
  destruct s as [|e s']; cbn [last_char drop_last append].
  - now intros [= ->].
  - intros Hl. f_equal. now apply IH.
Qed.

Lemma last_char_none (s : string) : last_char s = None -> s = "".
Proof.
  induction s as [|c s IH]; [reflexivity|].
  cbn. destruct s; [discriminate|]. intros Hl. now specialize (IH Hl).
Qed.

Lemma ends_with_colon_last (tok : string) :
  ends_with_colon tok = true <-> last_char tok = Some ":"%char.
Proof.
  unfold ends_with_colon. destruct (last_char tok) as [c|]; [|easy].
  rewrite Ascii.eqb_eq. split; congruence.
Qed.

Lemma nth_error_hd_skipn {A} (l : list A) (n : nat) :
  nth_error l n = hd_error (skipn n l).
Proof.
  revert l; induction n as [|n IH]; intros [|x l]; cbn; auto.
Qed.

Lemma skipn_tl {A} (l : list A) (n : nat) :
  skipn (S n) l = tl (skipn n l).
Proof.
  revert l; induction n as [|n IH]; intros [|x l]; try reflexivity.
  cbn [skipn] in *. now rewrite <- IH.
Qed.

Lemma scan_entry_run (k : nat) :
  forall (rw : row) (ii : nat) (entry : string) (toks : list string),
    skipn ii rw = toks ->
    (k < List.length toks)%nat ->
    Forall (fun tok => tok <> "") (firstn (S k) toks) ->
    last_char entry = last_char (hd "" toks) ->
    match find_index ends_with_colon (firstn k toks) with
    | Some d =>
        scan_entry k rw ii entry
        = Ok ((ii + d)%nat, extend entry (firstn d (tl toks)))
        /\ last_char (extend entry (firstn d (tl toks))) = Some ":"%char
    | None =>
        scan_entry k rw ii entry
        = Ok ((ii + k)%nat, extend entry (firstn k (tl toks)))
    end.
Proof.
  induction k as [|k IH]; intros rw ii entry toks Hs Hlen Hne Hlast.
  - destruct toks as [|tok rest]; [cbn in Hlen; lia|].
    cbn [firstn find_index scan_entry extend fold_left tl].
    rewrite nth_error_hd_skipn, Hs. cbn [hd_error].
    inversion Hne as [|? ? Htok _]; subst.
    destruct (last_char tok) as [c|] eqn:Ec.
    + rewrite Nat.add_0_r. now destruct (Ascii.eqb c ":").
    + now apply last_char_none in Ec.
  - destruct toks as [|tok [|tok' rest]]; try (cbn in Hlen; lia).
    cbn [firstn find_index]. cbn [scan_entry].
    rewrite nth_error_hd_skipn, Hs. cbn [hd_error].
    inversion Hne as [|? ? Htok Hne']; subst.
    cbn [hd] in Hlast.
    unfold ends_with_colon at 1.
    destruct (last_char tok) as [c|] eqn:Ec.
    2:{ now apply last_char_none in Ec. }
    destruct (Ascii.eqb c ":") eqn:Ecol.
    + cbn [firstn extend fold_left tl]. rewrite Nat.add_0_r.
      apply Ascii.eqb_eq in Ecol. subst c. split; [reflexivity|congruence].
    + rewrite nth_error_hd_skipn, skipn_tl, Hs. cbn [tl hd_error].
      specialize (IH rw (S ii) (entry ++ " " ++ tok') (tok' :: rest)).
      rewrite skipn_tl, Hs in IH. cbn [tl] in IH.
      assert (Htok' : tok' <> "").
      { cbn [firstn] in Hne'. now inversion Hne'. }
      specialize (IH eq_refl ltac:(cbn in *; lia) Hne').
      cbn [hd] in IH.
      assert (Hl : last_char (entry ++ " " ++ tok') = last_char tok').
      { rewrite last_char_app by discriminate. now apply last_char_app. }
      specialize (IH Hl).
      destruct (find_index ends_with_colon (firstn k (tok' :: rest))) as [d|];
        cbn [option_map tl firstn extend fold_left].
      * rewrite Nat.add_succ_r. exact IH.
      * rewrite Nat.add_succ_r. exact IH.
Qed.

Lemma string_app_assoc (a b c : string) : (a ++ b) ++ c = a ++ b ++ c.
Proof. induction a as [|x a IH]; cbn; [reflexivity | now rewrite IH]. Qed.

Lemma extend_app (a b : string) (toks : list string) :
  extend (a ++ b) toks = a ++ extend b toks.
Proof.
  revert b. induction toks as [|t toks IH]; intros b; [reflexivity|].
  cbn [extend fold_left] in *. rewrite string_app_assoc. apply IH.
Qed.

Lemma concat_extend (tok : string) (toks : list string) :
  String.concat " " (tok :: toks) = extend tok toks.
Proof.
  revert tok. induction toks as [|t toks IH]; intros tok; [reflexivity|].
  cbn [String.concat]. cbn [String.concat] in IH. rewrite IH.
  cbn [extend fold_left]. fold (extend (tok ++ " " ++ t) toks).
  change (tok ++ " " ++ t) with (tok ++ (" " ++ t)).
  rewrite <- string_app_assoc, !extend_app, string_app_assoc. reflexivity.
Qed.

Lemma find_index_lt {A} (p : A -> bool) (l : list A) (d : nat) :
  find_index p l = Some d -> (d < List.length l)%nat.
Proof.
  revert d. induction l as [|x l IH]; intros d; cbn; [discriminate|].
  destruct (p x); [intros [= <-]; lia|].
  destruct (find_index p l) as [d'|]; [|discriminate].
  intros [= <-]. specialize (IH d' eq_refl). lia.
Qed.

Lemma In_firstn {A} (n : nat) (l : list A) (x : A) :
  In x (firstn n l) -> In x l.
Proof.
  intros Hin. rewrite <- (firstn_skipn n l). apply in_or_app. now left.
Qed.

Lemma classify_spec (rw : row) :
  rw <> [] ->
  Forall (fun tok => tok <> "") (firstn 4 rw) ->
  match find_index ends_with_colon (firstn (scan_bound rw) rw) with
  | Some ii =>
      let tag := kind_tag rw ii in
      drop_last tag ++ ":" = tag /\
      classify rw
      = Ok (if String.eqb tag "structural node:" then NodeDecl
            else ElemDecl (drop_last tag), tag)
  | None => exists entry, classify rw = Ok (Skip, entry)
  end.
Proof.
  intros Hne Hall. destruct rw as [|tok0 rest]; [congruence|].
  pose proof (scan_entry_run (scan_bound (tok0 :: rest)) (tok0 :: rest) 0
                tok0 (tok0 :: rest) eq_refl) as Hrun.
  assert (Hb : (scan_bound (tok0 :: rest) < List.length (tok0 :: rest))%nat).
  { unfold scan_bound. cbn [List.length]. lia. }
  assert (Hb3 : (scan_bound (tok0 :: rest) <= 3)%nat).
  { unfold scan_bound. lia. }
  specialize (Hrun Hb).
  assert (Hall' : Forall (fun tok => tok <> "")
                         (firstn (S (scan_bound (tok0 :: rest))) (tok0 :: rest))).
  { rewrite Forall_forall in *. intros tok Hin. apply Hall.
    apply (In_firstn (S (scan_bound (tok0 :: rest)))).
    rewrite firstn_firstn.
    now replace (Nat.min (S (scan_bound (tok0 :: rest))) 4)
      with (S (scan_bound (tok0 :: rest))) by lia. }
  specialize (Hrun Hall' eq_refl).
  unfold classify.
  destruct (find_index ends_with_colon
              (firstn (scan_bound (tok0 :: rest)) (tok0 :: rest))) as [d|] eqn:Ef.
  - destruct Hrun as [Hrun Hlast]. cbn [tl Nat.add] in Hrun, Hlast.
    assert (Hd : (d < scan_bound (tok0 :: rest))%nat).
    { apply find_index_lt in Ef. rewrite length_firstn in Ef. lia. }
    unfold kind_tag. cbn [firstn]. rewrite concat_extend.
    cbv zeta. split; [now apply drop_last_restore|].
    rewrite Hrun. cbn [rbind].
    destruct (Nat.eqb_spec d (scan_bound (tok0 :: rest))); [lia|].
    now destruct (String.eqb _ "structural node:").
  - cbn [Nat.add tl] in Hrun. rewrite Hrun. cbn [rbind].
    rewrite Nat.eqb_refl. eauto.
Qed.

Section ScanFacts.

Variable parse_node : row -> M pyret.
Variable parse_elements : string -> row -> M pyret.

(** What [scan_step] does once the row is classified. *)
Lemma scan_step_classified (rw : row) (bn be : Z) (s : Mbs.t)
      (act : action) (entry : string) :
  classify rw = Ok (act, entry) ->
  scan_step parse_node parse_elements rw bn be s
  = match act with
    | Skip => (Ok (bn, be, entry), s)
    | NodeDecl =>
        (r <- parse_node rw ;;
         bn' <- lift_res (accumulate bn r) ;;
         ret (bn', be, entry)) s
    | ElemDecl kind =>
        (r <- parse_elements kind rw ;;
         be' <- lift_res (accumulate be r) ;;
         ret (bn, be', entry)) s
    end.
Proof.
  intros Hc. unfold scan_step. unfold bind at 1. rewrite Hc.
  cbn [lift_res ret]. now destruct act.
Qed.

(** A step hands on the [entry] the classification left. *)
Lemma scan_step_entry (rw : row) (bn be : Z) (s s' : Mbs.t)
      (bn' be' : Z) (entry : string) :
  scan_step parse_node parse_elements rw bn be s = (Ok (bn', be', entry), s') ->
  exists act, classify rw = Ok (act, entry).
Proof.
  unfold scan_step. unfold bind at 1.
  destruct (classify rw) as [[act e]|x]; cbn [lift_res ret raise];
    [|discriminate].
  intros Hs. exists act. f_equal. f_equal.
  destruct act; unfold bind, ret, lift_res in Hs.
  - now inversion Hs.
  - destruct (parse_node rw s) as [[r|x] s1]; [|discriminate].
    destruct (accumulate bn r); cbn in Hs; now inversion Hs.
  - destruct (parse_elements kind rw s) as [[r|x] s1]; [|discriminate].
    destruct (accumulate be r); cbn in Hs; now inversion Hs.
Qed.

Lemma scan_rows_cons (rw : row) (rest : list row) (bn be : Z) (s : Mbs.t) :
  scan_rows parse_node parse_elements (rw :: rest) bn be s
  = match scan_step parse_node parse_elements rw bn be s with
    | (Ok (bn', be', entry), s') =>
        if String.eqb (drop_last entry) "Symbol table"
        then (Ok (bn', be'), s')
        else scan_rows parse_node parse_elements rest bn' be' s'
    | (Raise e, s') => (Raise e, s')
    end.
Proof.
  cbn [scan_rows]. unfold bind at 1.
  destruct (scan_step parse_node parse_elements rw bn be s)
    as [[[[bn' be'] entry]|e] s']; [|reflexivity].
  now destruct (String.eqb (drop_last entry) "Symbol table").
Qed.

(** Rows that follow a closing row are never read. *)
Lemma scan_rows_terminator (pre : list row) (t : row) (post : list row) :
  is_terminator t = true ->
  forall bn be s,
    scan_rows parse_node parse_elements (pre ++ t :: post) bn be s
    = scan_rows parse_node parse_elements (pre ++ [t]) bn be s.
Proof.
  intros Ht. induction pre as [|rw pre IH]; intros bn be s.
  - cbn [app]. rewrite !scan_rows_cons.
    destruct (scan_step parse_node parse_elements t bn be s)
      as [[[[bn' be'] entry]|e] s'] eqn:Es; [|reflexivity].
    apply scan_step_entry in Es. destruct Es as [act Hc].
    unfold is_terminator in Ht. rewrite Hc in Ht. now rewrite Ht.
  - cbn [app]. rewrite !scan_rows_cons.
    destruct (scan_step parse_node parse_elements rw bn be s)
      as [[[[bn' be'] entry]|e] s']; [|reflexivity].
    destruct (String.eqb (drop_last entry) "Symbol table"); [reflexivity|].
    apply IH.
Qed.

(** Rows the loop goes through can be split off. *)
Lemma scan_rows_through (pre rest : list row) :
  forall bn be s bn' be' s',
    scan_through parse_node parse_elements pre bn be s = Some (bn', be', s') ->
    scan_rows parse_node parse_elements (pre ++ rest) bn be s
    = scan_rows parse_node parse_elements rest bn' be' s'.
Proof.
  induction pre as [|rw pre IH]; intros bn be s bn' be' s' Ht.
  - cbn in Ht. now inversion Ht.
  - cbn [app]. rewrite scan_rows_cons. cbn [scan_through] in Ht.
    destruct (scan_step parse_node parse_elements rw bn be s)
      as [[[[bn1 be1] entry]|e] s1]; [|discriminate].
    destruct (String.eqb (drop_last entry) "Symbol table"); [discriminate|].
    now apply IH.
Qed.

(** The end of the file ends the scan quietly. *)
Lemma scan_log_no_stop (log : option (list row)) (i1 i2 : bool) (s : Mbs.t) :
  fst (scan_log parse_node parse_elements log i1 i2 s) <> Raise StopIteration.
Proof.
  destruct log as [rows|]; cbn; [|discriminate].
  destruct (scan_rows parse_node parse_elements rows 1 1 s)
    as [[[bn be]|e] s']; cbn; [discriminate|].
  destruct e; cbn; discriminate.
Qed.

End ScanFacts.

(** *** What a computation leaves alone *)

Definition keeps {S A X : Type} (proj : S -> X) (m : ST S A) : Prop :=
  forall s, proj (snd (m s)) = proj s.

Section Keeps.

Context {S X : Type} (proj : S -> X).

Lemma keeps_ret {A} (a : A) : keeps proj (ret a).
Proof. now intros s. Qed.

Lemma keeps_raise {A} (e : exn) : keeps proj (@raise S A e).
Proof. now intros s. Qed.

Lemma keeps_get : keeps proj (@get S).
Proof. now intros s. Qed.

Lemma keeps_lift {A} (e : exn) (o : option A) : keeps proj (lift e o).
Proof. destruct o; [apply keeps_ret | apply keeps_raise]. Qed.

Lemma keeps_lift_res {A} (r : res A) : keeps proj (lift_res r).
Proof. destruct r; [apply keeps_ret | apply keeps_raise]. Qed.

Lemma keeps_modify (f : S -> S) :
  (forall s, proj (f s) = proj s) -> keeps proj (modify f).
Proof. intros Hf s. apply Hf. Qed.

Lemma keeps_bind {A B} (m : ST S A) (k : A -> ST S B) :
  keeps proj m -> (forall a, keeps proj (k a)) -> keeps proj (bind m k).
Proof.
  intros Hm Hk s. unfold bind. specialize (Hm s).
  destruct (m s) as [[a|e] s1]; cbn [snd] in *; [|exact Hm].
  now rewrite Hk.
Qed.

Lemma keeps_catch {A} (m : ST S A) (handles : exn -> bool) (h : ST S A) :
  keeps proj m -> keeps proj h -> keeps proj (catch m handles h).
Proof.
  intros Hm Hh s. unfold catch. specialize (Hm s).
  destruct (m s) as [[a|e] s1]; cbn [snd] in *; [exact Hm|].
  destruct (handles e); cbn [snd]; [|exact Hm].
  now rewrite Hh.
Qed.

End Keeps.

Create HintDb keeps discriminated.
#[local] Hint Resolve keeps_ret keeps_raise keeps_get keeps_lift
  keeps_lift_res keeps_modify keeps_catch : keeps.

Ltac keeps_step :=
  match goal with
  | |- keeps _ (bind _ _) => apply keeps_bind; [|intros ?]
  | |- keeps _ (catch _ _ _) => apply keeps_catch
  | |- keeps _ (match ?x with _ => _ end) => destruct x
  | |- keeps _ (if ?b then _ else _) => destruct b
  | |- keeps _ _ => solve [auto with keeps]
  end.

Ltac keeps_auto := repeat keeps_step.

(** The part of the scene data the row count is derived from, and the part
    [no_output] leaves alone. *)
Definition counts (s : Mbs.t) :=
  (Mbs.nodes s, Mbs.use_netcdf s, Mbs.num_rows s, Mbs.num_nodes s,
   Mbs.num_timesteps s).

Definition shape (s : Mbs.t) :=
  (List.length (Mbs.nodes s), Mbs.use_netcdf s, Mbs.num_rows s).

Lemma length_update_at {A} (k : nat) (f : A -> A) (l : list A) :
  List.length (update_at k f l) = List.length l.
Proof.
  revert k; induction l as [|x l IH]; intros [|k]; cbn; auto.
Qed.

Lemma keeps_set_node_output (k : nat) : keeps shape (set_node_output k).
Proof.
  apply keeps_modify. intros s. unfold shape. cbn.
  now rewrite length_update_at.
Qed.
#[local] Hint Resolve keeps_set_node_output : keeps.

Lemma keeps_row_int {X} (proj : Mbs.t -> X) (rw : row) (i : nat) :
  keeps proj (row_int rw i).
Proof. unfold row_int. keeps_auto. Qed.
#[local] Hint Resolve keeps_row_int : keeps.

Lemma keeps_count_first_block (rest : list row) :
  forall rw first_node num_nodes,
    keeps shape (count_first_block rw rest first_node num_nodes).
Proof.
  induction rest as [|rw' rest IH]; intros rw first_node num_nodes;
    cbn [count_first_block]; keeps_auto.
Qed.

Lemma keeps_mark_netcdf_output (nc : dataset) (log_nodes : list Z) :
  keeps shape (mark_netcdf_output nc log_nodes).
Proof.
  induction log_nodes as [|node rest IH]; cbn [mark_netcdf_output];
    keeps_auto.
Qed.

#[local] Hint Resolve keeps_count_first_block keeps_mark_netcdf_output
  : keeps.

Lemma keeps_no_output (fs : files) : keeps shape (no_output fs).
Proof. unfold no_output. keeps_auto. Qed.

Section PassFacts.

Variable parse_node : row -> M pyret.
Variable parse_elements : string -> row -> M pyret.
Variable float : string -> option Qc.
Variable parse_reference_frame : row -> list Ref.t -> res unit * list Ref.t.

Lemma keeps_scan_out (rows : list row) (nc : option dataset) :
  keeps counts (scan_out float rows nc).
Proof.
  induction rows as [|rw rest IH]; cbn [scan_out]; keeps_auto.
Qed.

Lemma keeps_read_out (fs : files) (nc : option dataset) (rv : status) :
  keeps counts (read_out float fs nc rv).
Proof.
  unfold read_out. keeps_auto. apply keeps_scan_out.
Qed.

Lemma keeps_on_references (f : list Ref.t -> res unit * list Ref.t) :
  keeps counts (on_references f).
Proof.
  intros s. unfold on_references.
  now destruct (f (Mbs.references s)).
Qed.

Lemma keeps_read_rfm (fs : files) :
  keeps counts (read_rfm parse_reference_frame fs).
Proof.
  unfold read_rfm. destruct (rfm_file fs) as [rows|]; [|auto with keeps].
  apply keeps_catch; [|auto with keeps].
  induction rows as [|rw rest IH]; cbn [read_rfm_rows]; keeps_auto;
    apply keeps_on_references.
Qed.


Lemma bind_ok {S A B} (m : ST S A) (k : A -> ST S B) (s s' : S) (b : B) :
  bind m k s = (Ok b, s') ->
  exists a s1, m s = (Ok a, s1) /\ k a s1 = (Ok b, s').
Proof.
  unfold bind. destruct (m s) as [[a|e] s1]; [eauto | discriminate].
Qed.

Ltac bind_inv H :=
  let a := fresh "a" in
  let s1 := fresh "s" in
  let Ha := fresh "Hm" in
  apply bind_ok in H; destruct H as (a & s1 & Ha & H).

Lemma keeps_eq {A X} (proj : Mbs.t -> X) (m : M A) (s s' : Mbs.t)
      (r : res A) :
  keeps proj m -> m s = (r, s') -> proj s' = proj s.
Proof. intros Hk Hm. specialize (Hk s). now rewrite Hm in Hk. Qed.

Lemma account_nodes_inv (fs : files) (s1 s2 : Mbs.t) (rv : status)
      (nc : option dataset) :
  account_nodes fs s1 = (Ok (rv, nc), s2) ->
  (rv = NODES_NOT_FOUND /\ s2 = s1 /\ Mbs.nodes s1 = [])
  \/ (rv = FINISHED /\ Mbs.nodes s1 <> [] /\
      exists s1a lo hi,
        no_output fs s1 = (Ok tt, s1a)
        /\ if Mbs.use_netcdf s1a then Mbs.use_netcdf s2 = true
           else s2 = Mbs.set_is_ready true
                       (Mbs.set_num_timesteps
                          (Z.quot (Mbs.num_rows s1a)
                                  (Z.of_nat (List.length (Mbs.nodes s1))))
                          (Mbs.set_num_nodes
                             (Z.of_nat (List.length (Mbs.nodes s1)))
                             (Mbs.set_node_import lo hi s1a)))).
Proof.
  unfold account_nodes. unfold bind at 1. cbn [get]. intros H.
  destruct (Z.eqb_spec (Z.of_nat (List.length (Mbs.nodes s1))) 0) as [E|E].
  - assert (rv = NODES_NOT_FOUND /\ s2 = s1) as [-> ->]
      by (cbn in H; now inversion H).
    left. split; [reflexivity|]. split; [reflexivity|].
    destruct (Mbs.nodes s1); [reflexivity | cbn in E; lia].
  - right. unfold bind at 1 in H.
    destruct (no_output fs s1) as [[[]|e] s1a] eqn:Eno; [|discriminate].
    unfold bind at 1 in H. cbn [get] in H. unfold bind at 1 in H.
    destruct (extrema (map Node.int_label (Mbs.nodes s1a))) as [[lo hi]|];
      cbn [lift ret raise] in H; [|discriminate].
    unfold bind at 1 in H. cbn [modify] in H. unfold bind at 1 in H.
    assert (Hne : Mbs.nodes s1 <> []).
    { intros E0. rewrite E0 in E. now cbn in E. }
    destruct (Mbs.use_netcdf s1a) eqn:En.
    + unfold bind at 1 in H.
      destruct (nc_file fs) as [d|]; cbn [lift ret raise] in H;
        [|discriminate].
      unfold bind at 1 in H.
      destruct (variables d "time") as [t|]; cbn [lift ret raise] in H;
        [|discriminate].
      unfold bind at 1 in H.
      destruct (array_len t) as [n|]; cbn [lift_res ret raise] in H;
        [|discriminate].
      cbn in H. inversion H; subst. repeat split; auto.
      exists s1a, lo, hi. rewrite En. split; [reflexivity|]. cbn. exact En.
    + cbn in H. inversion H; subst. repeat split; auto.
      exists s1a, lo, hi. rewrite En. split; reflexivity.
Qed.

Lemma account_nodes_text (fs : files) (s1 s2 : Mbs.t) (rv : status)
      (nc : option dataset) :
  account_nodes fs s1 = (Ok (rv, nc), s2) ->
  Mbs.use_netcdf s2 = false ->
  Mbs.nodes s2 <> [] ->
  rv = FINISHED
  /\ Mbs.num_nodes s2 = Z.of_nat (List.length (Mbs.nodes s2))
  /\ Mbs.num_timesteps s2 = Z.quot (Mbs.num_rows s2) (Mbs.num_nodes s2).
Proof.
  intros H Hnc Hne. apply account_nodes_inv in H.
  destruct H as [(-> & -> & E)|(-> & Hne1 & s1a & lo & hi & Hno & H)];
    [congruence|].
  pose proof (keeps_eq _ _ _ _ _ (keeps_no_output fs) Hno) as Hsh.
  unfold shape in Hsh. inversion Hsh as [[Hlen Hnet Hrows]].
  destruct (Mbs.use_netcdf s1a); [congruence|].
  subst s2. cbn. rewrite Hlen. auto.
Qed.

Lemma read_out_status (fs : files) (nc : option dataset) (rv rv' : status)
      (s s' : Mbs.t) :
  read_out float fs nc rv s = (Ok rv', s') ->
  rv' = rv \/ rv' = OUT_NOT_FOUND.
Proof.
  unfold read_out. destruct (out_file fs) as [rows|].
  - unfold catch, bind, ret.
    destruct (scan_out float rows nc s) as [[[]|e] s1].
    + intros [= <- <-]. now left.
    + destruct (_ || _); [|discriminate]. intros [= <- <-]. now left.
  - intros [= <- <-]. now right.
Qed.

(** What is left of [finish_pass] once the nodes are accounted for. *)
Lemma finish_pass_inv (fs : files) (s1 s' : Mbs.t) (st : status)
      (objs : list string) :
  finish_pass float parse_reference_frame fs s1 = (Ok (st, objs), s') ->
  exists rv nc s2,
    account_nodes fs s1 = (Ok (rv, nc), s2)
    /\ counts s' = counts s2
    /\ (st = rv \/ st = OUT_NOT_FOUND)
    /\ objs = filter nonempty (stale_node_objects (Mbs.nodes s1)
                               ++ stale_elem_objects (Mbs.elems s1)).
Proof.
  unfold finish_pass. unfold bind at 1. cbn [get]. unfold bind at 1.
  destruct (account_nodes fs s1) as [[[rv nc]|e] s2]; [|discriminate].
  intros H. exists rv, nc, s2. split; [reflexivity|].
  assert (Hc : counts s' = counts s2).
  { eapply (keeps_eq counts); [|exact H]. keeps_auto.
    - apply keeps_read_out.
    - apply keeps_read_rfm. }
  split; [exact Hc|].
  unfold bind at 1 in H. cbn [get] in H. unfold bind at 1 in H.
  destruct ((match extrema (map Elem.int_label (Mbs.elems s2)) with
             | Some (lo, hi) => modify (Mbs.set_elem_import lo hi)
             | None => ret tt
             end) s2) as [[[]|e] s2a]; [|discriminate].
  unfold bind at 1 in H.
  destruct (read_out float fs nc rv s2a) as [[rv'|e] s3] eqn:Ero;
    [|discriminate].
  apply read_out_status in Ero.
  unfold bind at 1 in H.
  destruct (read_rfm parse_reference_frame fs s3) as [[[]|e] s4];
    [|discriminate].
  unfold bind at 1 in H. cbn [get] in H. unfold bind at 1 in H.
  destruct (Mbs.use_netcdf s4); cbn in H; inversion H; subst; auto.
Qed.

(** The scan of the declarations bears on the outcome through the scene
    data it leaves only. *)
Lemma parse_log_file_inv (fs : files) (s s' : Mbs.t)
      (r : res (status * list string)) :
  parse_log_file parse_node parse_elements float parse_reference_frame fs s
  = (r, s') ->
  match scan_log parse_node parse_elements (log_file fs)
                 (List.length (Mbs.nodes s) =? 0)%nat
                 (List.length (Mbs.elems s) =? 0)%nat
                 (snd (clear_imported s)) with
  | (Ok _, s1) => finish_pass float parse_reference_frame fs s1 = (r, s')
  | (Raise e, s1) => r = Raise e /\ s' = s1
  end.
Proof.
  unfold parse_log_file. unfold bind at 1. cbn [get].
  unfold bind at 1. cbn [clear_imported modify snd].
  unfold bind at 1.
  destruct (scan_log _ _ _ _ _ _) as [[v|e] s1]; [auto|].
  now intros [= <- <-].
Qed.


Lemma parse_log_file_unfold (fs : files) (s : Mbs.t) :
  parse_log_file parse_node parse_elements float parse_reference_frame fs s
  = match scan_log parse_node parse_elements (log_file fs)
                   (List.length (Mbs.nodes s) =? 0)%nat
                   (List.length (Mbs.elems s) =? 0)%nat
                   (snd (clear_imported s)) with
    | (Ok _, s1) => finish_pass float parse_reference_frame fs s1
    | (Raise e, s1) => (Raise e, s1)
    end.
Proof. reflexivity. Qed.

Lemma finish_pass_with_log (fs : files) (log : list row) (s : Mbs.t) :
  finish_pass float parse_reference_frame (with_log fs log) s
  = finish_pass float parse_reference_frame fs s.
Proof. reflexivity. Qed.

(** Whatever the scan found, the pass reports one of three values. *)
Lemma parse_log_file_status (fs : files) (s s' : Mbs.t) (st : status)
      (objs : list string) :
  parse_log_file parse_node parse_elements float parse_reference_frame fs s
  = (Ok (st, objs), s') ->
  st = FINISHED \/ st = NODES_NOT_FOUND \/ st = OUT_NOT_FOUND.
Proof.
  intros H. apply parse_log_file_inv in H.
  destruct (scan_log _ _ _ _ _ _) as [[v|e] s1]; [|now destruct H].
  apply finish_pass_inv in H.
  destruct H as (rv & nc & s2 & Ha & _ & [->| ->] & _); [|auto].
  apply account_nodes_inv in Ha.
  destruct Ha as [(-> & _)|(-> & _)]; auto.
Qed.


Lemma terminator_entry (t : row) :
  is_terminator t = true ->
  exists act c, classify t = Ok (act, "Symbol table" ++ String c "").
Proof.
  unfold is_terminator.
  destruct (classify t) as [[act entry]|e]; [|discriminate].
  intros He. apply String.eqb_eq in He. exists act.
  destruct (last_char entry) as [c|] eqn:El.
  - exists c. rewrite <- He. now rewrite (drop_last_restore _ _ El).
  - apply last_char_none in El. subst entry. discriminate.
Qed.

(** C8 (as amended). The scan of the declarations ends at the first row
    that leaves [entry] equal to ["Symbol table"] followed by one more
    character, as the row of the line [Symbol table:] does, or at the
    end of the file, which is not an error; once such a row is met, the
    pass does not depend on what follows it. *)
Theorem scan_ends_at_symbol_table
        (fs : files) (pre : list row) (t : row) (post : list row)
        (s : Mbs.t) :
  is_terminator t = true ->
  (exists act c, classify t = Ok (act, "Symbol table" ++ String c ""))
  /\ parse_log_file parse_node parse_elements float parse_reference_frame
       (with_log fs (pre ++ t :: post)) s
     = parse_log_file parse_node parse_elements float parse_reference_frame
         (with_log fs (pre ++ [t])) s
  /\ forall rows i1 i2 s0,
       fst (scan_log parse_node parse_elements (Some rows) i1 i2 s0)
       <> Raise StopIteration.
Proof.
  intros Ht. split; [now apply terminator_entry|]. split.
  - rewrite !parse_log_file_unfold. cbn [with_log log_file scan_log].
    rewrite (scan_rows_terminator parse_node parse_elements pre t post Ht).
    destruct (scan_rows _ _ _ _ _ _) as [[[bn be]|e] s1]; [reflexivity|].
    now destruct e.
  - intros rows i1 i2 s0. apply scan_log_no_stop.
Qed.

(** C9. After a pass over the text output that leaves at least one
    node, [num_nodes] is the number of nodes and [num_timesteps] is the
    integer quotient of [num_rows] by it, so the product gives
    [num_rows] back exactly when the division is exact, and five nodes
    with fifty rows give ten steps; the pass reports no error for an
    inexact division. *)
Theorem row_count_coherence
        (fs : files) (s s' : Mbs.t) (st : status) (objs : list string) :
  parse_log_file parse_node parse_elements float parse_reference_frame fs s
  = (Ok (st, objs), s') ->
  Mbs.use_netcdf s' = false ->
  Mbs.nodes s' <> [] ->
  Mbs.num_nodes s' = Z.of_nat (List.length (Mbs.nodes s'))
  /\ Mbs.num_timesteps s' = Z.quot (Mbs.num_rows s') (Mbs.num_nodes s')
  /\ (Mbs.num_rows s' = Mbs.num_nodes s' * Mbs.num_timesteps s'
      <-> (Mbs.num_nodes s' | Mbs.num_rows s'))
  /\ (Mbs.num_nodes s' = 5 -> Mbs.num_rows s' = 50 ->
      Mbs.num_timesteps s' = 10)
  /\ (st = FINISHED \/ st = OUT_NOT_FOUND).
Proof.
  intros H Hnet Hne. apply parse_log_file_inv in H.
  destruct (scan_log _ _ _ _ _ _) as [[v|e] s1]; [|now destruct H].
  apply finish_pass_inv in H.
  destruct H as (rv & nc & s2 & Ha & Hc & Hst & _).
  unfold counts in Hc. injection Hc as Hnd Hn Hr Hnn Hts.
  rewrite Hnd in Hne. rewrite Hn in Hnet.
  destruct (account_nodes_text _ _ _ _ _ Ha Hnet Hne) as (-> & Ennum & Ets).
  rewrite <- Hnd, <- Hr, <- Hnn, <- Hts in *. clear Hnd Hn Hr Hnn Hts.
  assert (Hpos : Mbs.num_nodes s' <> 0).
  { rewrite Ennum. destruct (Mbs.nodes s'); [congruence | cbn; lia]. }
  repeat split; auto.
  - rewrite Ets. intros E. apply Z.rem_divide; [exact Hpos|].
    now apply Z.quot_exact.
  - rewrite Ets. intros D. apply Z.quot_exact; [exact Hpos|].
    now apply Z.rem_divide.
  - intros E5 E50. rewrite Ets, E5, E50. reflexivity.
Qed.

End PassFacts.

Section AbortFacts.

Variable parse_elements : string -> row -> M pyret.
Variable float : string -> option Qc.
Variable parse_reference_frame : row -> list Ref.t -> res unit * list Ref.t.
Variable default_node : Node.t.
Variable node_fields : row -> option (string * string).
Variable parametrization_of : string -> option string.

#[local] Abbreviation parse_node :=
  (LogParser.parse_node default_node node_fields parametrization_of).

(** The node sub-parser refuses the record before it touches the
    registry. *)
Lemma parse_node_unsupported (rw : row) (lab par : string) (s : Mbs.t) :
  node_fields rw = Some (lab, par) ->
  parametrization_of par = None ->
  parse_node rw s = (Ok PyEmptyDict, s).
Proof.
  intros Hf Hp. unfold LogParser.parse_node, bind. rewrite Hf. cbn [lift ret].
  now rewrite Hp.
Qed.

(** C2 (as amended). When the log declares a node whose rotation
    parametrization is not supported, the scan of the declarations is
    left at that record with [ROTATION_ERROR] for its verdict: neither
    that record nor any later one is applied, and the pass goes on from
    the registry as the records before it left it, with the import
    flags that were cleared before the scan. Nothing is rolled back. *)
Theorem unsupported_parametrization_aborts
        (fs : files) (pre : list row) (bad : row) (post : list row)
        (entry lab par : string) (i1 i2 : bool)
        (s0 s1 : Mbs.t) (bn be : Z) :
  scan_through parse_node parse_elements pre 1 1 (snd (clear_imported s0))
  = Some (bn, be, s1) ->
  classify bad = Ok (NodeDecl, entry) ->
  node_fields bad = Some (lab, par) ->
  parametrization_of par = None ->
  scan_log parse_node parse_elements (Some (pre ++ bad :: post)%list) i1 i2
           (snd (clear_imported s0))
  = (Ok ROTATION_ERROR, s1)
  /\ parse_log_file parse_node parse_elements float parse_reference_frame
       (with_log fs (pre ++ bad :: post)%list) s0
     = finish_pass float parse_reference_frame fs s1.
Proof.
  intros Hpre Hc Hf Hp.
  assert (Hscan : forall j1 j2,
             scan_log parse_node parse_elements (Some (pre ++ bad :: post)%list)
                      j1 j2 (snd (clear_imported s0))
             = (Ok ROTATION_ERROR, s1)).
  { intros j1 j2. cbn [scan_log].
    rewrite (scan_rows_through _ _ _ _ _ _ _ _ _ _ Hpre).
    rewrite scan_rows_cons.
    rewrite (scan_step_classified _ _ _ _ _ _ _ _ Hc).
    unfold bind at 1. rewrite (parse_node_unsupported _ _ _ _ Hf Hp).
    reflexivity. }
  split; [apply Hscan|].
  rewrite parse_log_file_unfold. cbn [with_log log_file].
  rewrite Hscan. apply finish_pass_with_log.
Qed.

End AbortFacts.

(** *** The statements on the sample data *)

Import Samples.



Lemma scan_ends_at_symbol_table_witness :
  is_terminator symbol_table = true
  /\ Samples.parse_log_file
       (with_log (text_files [] mov_124)
                 ([node_decl "4" "phi"] ++ symbol_table :: [node_decl "9" "phi"]))
       scene_123
     = Samples.parse_log_file
         (with_log (text_files [] mov_124)
                   ([node_decl "4" "phi"] ++ [symbol_table]))
         scene_123.
Proof.
  split; [reflexivity|].
  apply (scan_ends_at_symbol_table
           Samples.parse_node Samples.parse_elements Samples.float
           Samples.parse_reference_frame (text_files [] mov_124)
           [node_decl "4" "phi"] symbol_table [node_decl "9" "phi"]
           scene_123 eq_refl).
Defined.

(** C8, the claim as stated fails: the row of a line that reads
    [Symbol table] and no more does not end the scan, and the declaration
    after it is applied. *)
Lemma literal_symbol_table_does_not_stop :
  is_terminator ["Symbol"; "table"] = false
  /\ map Node.int_label
         (Mbs.nodes (snd (Samples.parse_log_file
                            (text_files log_literal mov_124) scene_123)))
     = [1; 2; 3; 7].
Proof. vm_compute. split; reflexivity. Qed.

Lemma row_count_coherence_witness :
  let s' := snd (Samples.parse_log_file (text_files log_5 mov_5)
                                       (scene [] 50)) in
  Mbs.num_nodes s' = 5 /\ Mbs.num_rows s' = 50 /\ Mbs.num_timesteps s' = 10.
Proof.
  unfold Samples.parse_log_file.
  remember (snd (LogParser.parse_log_file
                   Samples.parse_node Samples.parse_elements Samples.float
                   Samples.parse_reference_frame
                   (text_files log_5 mov_5) (scene [] 50))) as s' eqn:Es.
  cbv zeta.
  assert (Hrun : LogParser.parse_log_file
                   Samples.parse_node Samples.parse_elements Samples.float
                   Samples.parse_reference_frame
                   (text_files log_5 mov_5) (scene [] 50)
                 = (Ok (FINISHED, []), s'))
    by (subst s'; vm_compute; reflexivity).
  assert (Hnet : Mbs.use_netcdf s' = false)
    by (subst s'; vm_compute; reflexivity).
  assert (Hne : Mbs.nodes s' <> [])
    by (subst s'; vm_compute; discriminate).
  assert (H5 : Mbs.num_nodes s' = 5) by (subst s'; vm_compute; reflexivity).
  assert (H50 : Mbs.num_rows s' = 50) by (subst s'; vm_compute; reflexivity).
  clear Es.
  pose proof (row_count_coherence _ _ _ _ _ _ _ _ _ Hrun Hnet Hne) as Hcoh.
  split; [exact H5|]. split; [exact H50|].
  exact (proj1 (proj2 (proj2 (proj2 Hcoh))) H5 H50).
Defined.

(** A division that is not exact is no error: four nodes and seven rows
    make one step, and the pass reports [FINISHED]. *)
Example inexact_row_count :
  let r := Samples.parse_log_file (text_files log_124 mov_124)
             (scene (Mbs.nodes scene_123) 7) in
  fst r = Ok (FINISHED, ["Node3"])
  /\ Mbs.num_nodes (snd r) = 4 /\ Mbs.num_timesteps (snd r) = 1.
Proof. vm_compute. repeat split. Qed.

Lemma unsupported_parametrization_aborts_witness :
  exists s1,
    scan_log Samples.parse_node Samples.parse_elements
             (Some ([node_decl "5" "phi"] ++ node_decl "1" "euler313"
                    :: [node_decl "6" "phi"; symbol_table])%list)
             false true (snd (clear_imported scene_123))
    = (Ok ROTATION_ERROR, s1)
    /\ map Node.int_label (Mbs.nodes s1) = [1; 2; 3; 5]
    /\ map Node.is_imported (Mbs.nodes s1) = [false; false; false; true].
Proof.
  eexists. split.
  - refine (proj1 (unsupported_parametrization_aborts
              Samples.parse_elements Samples.float
              Samples.parse_reference_frame blank_node Samples.node_fields
              Samples.parametrization_of (text_files [] mov_124)
              [node_decl "5" "phi"] (node_decl "1" "euler313")
              [node_decl "6" "phi"; symbol_table]
              "structural node:" "1" "euler313" false true
              scene_123 _ 0 1 _ eq_refl eq_refl eq_refl)).
    reflexivity.
  - split; reflexivity.
Defined.

(** C2, the claim as stated fails: the pass over a log with an
    unsupported parametrization reports [FINISHED], and it has changed
    the registry: the import flags of the nodes are cleared, their
    objects are listed for removal, and the node declared before the
    offending record is there. *)
Lemma unsupported_parametrization_not_atomic :
  let r := Samples.parse_log_file (text_files log_313 mov_124) scene_123 in
  fst r = Ok (FINISHED, ["Node1"; "Node2"; "Node3"])
  /\ map Node.int_label (Mbs.nodes (snd r)) = [1; 2; 3; 5]
  /\ map Node.is_imported (Mbs.nodes (snd r)) = [false; false; false; true]
  /\ map Node.is_imported (Mbs.nodes scene_123) = [true; true; true].
Proof. vm_compute. repeat split. Qed.

(** C1, the pass on the failing input: the scan of a log that declares
    the nodes 1, 2 and 4 over a registry of the nodes 1, 2 and 3 reaches
    the verdict [NODES_INCONSISTENT], node 4 is created and the object of
    node 3 is listed for removal, but the value the pass returns is
    [FINISHED]. *)
Theorem reimport_reports_finished :
  let r := Samples.parse_log_file (text_files log_124 mov_124) scene_123 in
  fst (scan_log Samples.parse_node Samples.parse_elements (Some log_124)
                false true (snd (clear_imported scene_123)))
  = Ok NODES_INCONSISTENT
  /\ fst r = Ok (FINISHED, ["Node3"])
  /\ map Node.int_label (Mbs.nodes (snd r)) = [1; 2; 3; 4]
  /\ map Node.is_imported (Mbs.nodes (snd r)) = [true; true; false; true].
Proof. vm_compute. repeat split. Qed.

End LogParserFacts.

(** ** Facts on the Label Resolver *)

Module LabelResolverFacts.

Import LabelResolver.

(** The two labels of a record are independent fields. *)
Class LabelledLaws (A : Type) `{Labelled A} : Prop := {
  int_label_with : forall v a,
    int_label_of (with_string_label v a) = int_label_of a;
  string_label_with : forall v a,
    string_label_of (with_string_label v a) = v;
  with_with : forall v w a,
    with_string_label v (with_string_label w a) = with_string_label v a;
  with_same : forall a,
    with_string_label (string_label_of a) a = a }.

#[export] Instance LabelledLaws_node : LabelledLaws Node.t.
Proof. split; intros; try destruct a; reflexivity. Qed.

#[export] Instance LabelledLaws_elem : LabelledLaws Elem.t.
Proof. split; intros; try destruct a; reflexivity. Qed.

#[export] Instance LabelledLaws_ref : LabelledLaws Ref.t.
Proof. split; intros; try destruct a; reflexivity. Qed.

Section Relabel.

Context {A : Type} `{LabelledLaws A}.

Lemma relabel_unchanged (l : Z) (str : string) (d : list A) :
  fst (relabel l str d) = false -> snd (relabel l str d) = d.
Proof.
  induction d as [|a d IH]; cbn [relabel]; [reflexivity|].
  destruct (int_label_of a =? l).
  - destruct (negb (String.eqb (string_label_of a) str)); [discriminate|].
    reflexivity.
  - destruct (relabel l str d) as [b d']. cbn [fst snd] in *.
    intros Hb. now rewrite IH.
Qed.

Lemma relabel_changed (l : Z) (str : string) (d : list A) :
  fst (relabel l str d) = true -> snd (relabel l str d) <> d.
Proof.
  induction d as [|a d IH]; cbn [relabel]; [discriminate|].
  destruct (int_label_of a =? l).
  - destruct (String.eqb_spec (string_label_of a) str) as [E|E];
      cbn [negb fst snd]; [discriminate|].
    intros _ [= Ea]. apply E. rewrite <- Ea at 1. apply string_label_with.
  - destruct (relabel l str d) as [b d']. cbn [fst snd] in *.
    intros Hb [= Ed]. now apply IH.
Qed.

(** The records after [relabel], one by one: only a record of that
    integer label can differ, and then by its string label only. *)
Lemma relabel_frame (l : Z) (str : string) (d : list A) :
  Forall2 (fun a b => b = a \/ (int_label_of a = l
                                /\ b = with_string_label str a))
          d (snd (relabel l str d)).
Proof.
  induction d as [|a d IH]; cbn [relabel]; [constructor|].
  assert (Hrefl : Forall2 (fun a b : A => b = a \/ (int_label_of a = l
                                /\ b = with_string_label str a)) d d).
  { clear. induction d; constructor; auto. }
  destruct (Z.eqb_spec (int_label_of a) l) as [E|E].
  - destruct (negb (String.eqb (string_label_of a) str)); cbn [snd];
      constructor; auto.
  - destruct (relabel l str d) as [b d']. cbn [snd] in *.
    constructor; auto.
Qed.

(** [relabel] in terms of the position of the first record of that
    label. *)
Lemma relabel_first (l : Z) (str : string) (d : list A) :
  snd (relabel l str d)
  = match find_index (is_labelled l) d with
    | Some k => update_at k (with_string_label str) d
    | None => d
    end.
Proof.
  induction d as [|a d IH]; cbn [relabel find_index]; [reflexivity|].
  unfold is_labelled at 1.
  destruct (int_label_of a =? l).
  - cbn [update_at].
    destruct (String.eqb_spec (string_label_of a) str) as [E|E];
      cbn [negb snd]; [|reflexivity].
    now rewrite <- E, with_same.
  - destruct (relabel l str d) as [b d']. cbn [snd] in *. rewrite IH.
    now destruct (find_index (is_labelled l) d).
Qed.

(** What [assign_label] does on a collection. *)
Lemma assign_label_run (free_labels : bool)
      (line entity_type set_string : string) (d : list A) :
  assign_label free_labels line entity_type set_string d
  = match line_value line with
    | Some l =>
        let r := relabel l (label_text free_labels line entity_type
                                       set_string) d in
        (Ok (fst r), snd r)
    | None => (Raise ValueError, d)
    end.
Proof.
  unfold assign_label, line_value, label_text, bind.
  cbv zeta.
  destruct (Py.int _) as [l|]; cbn [lift ret raise get]; [|reflexivity].
  destruct free_labels;
    match goal with
    | |- context [relabel ?l ?s ?d] => destruct (relabel l s d)
    end; reflexivity.
Qed.

End Relabel.


(** *** One line of the log *)

Lemma set_nodes_same (s : Mbs.t) : Mbs.set_nodes (Mbs.nodes s) s = s.
Proof. now destruct s. Qed.

Lemma set_elems_same (s : Mbs.t) : Mbs.set_elems (Mbs.elems s) s = s.
Proof. now destruct s. Qed.

Lemma set_references_same (s : Mbs.t) :
  Mbs.set_references (Mbs.references s) s = s.
Proof. now destruct s. Qed.

(** A collection and a flag as a call of [assign_label] for the integer
    label [l] leaves them, or as they are when the collection is not
    called upon. *)
Definition touched {A} `{Labelled A} (l : Z) (d : list A)
           (r : bool * list A) : Prop :=
  r = (false, d) \/ exists str, r = relabel l str d.

Lemma touched_flag {A} `{LabelledLaws A} (l : Z) (d : list A)
      (b : bool) (d' : list A) :
  touched l d (b, d') -> (b = false <-> d' = d).
Proof.
  intros [[= -> ->]|[str E]]; [tauto|].
  pose proof (relabel_unchanged l str d) as Hu.
  pose proof (relabel_changed l str d) as Hc.
  rewrite <- E in Hu, Hc. cbn [fst snd] in Hu, Hc.
  destruct b; split; auto; try discriminate.
  intros E'. now destruct Hc.
Qed.

Lemma touched_frame {A} `{LabelledLaws A} (l : Z) (d : list A)
      (b : bool) (d' : list A) :
  touched l d (b, d') ->
  Forall2 (fun a b => b = a \/ (int_label_of a = l
                                /\ exists str, b = with_string_label str a))
          d d'.
Proof.
  intros [[= -> ->]|[str E]].
  - induction d; constructor; auto.
  - pose proof (relabel_frame l str d) as Hf. rewrite <- E in Hf.
    cbn [snd] in Hf. eapply Forall2_impl; [|exact Hf].
    cbn. intros a c [->|[Hl ->]]; eauto.
Qed.

(** The outcome of one line: the line is passed over, or its right-hand
    side is no integer and [int] raises before anything is touched, or
    each collection is left as [assign_label] for the integer of the
    line leaves it. *)
Definition line_outcome (line : string) (lc : Z) (s : Mbs.t)
           (r : res Z) (s' : Mbs.t) : Prop :=
  (r = Ok lc /\ s' = s)
  \/ (line_value line = None /\ r = Raise ValueError /\ s' = s)
  \/ exists l bn nd be ed br rd,
       line_value line = Some l
       /\ touched l (Mbs.nodes s) (bn, nd)
       /\ touched l (Mbs.elems s) (be, ed)
       /\ touched l (Mbs.references s) (br, rd)
       /\ r = Ok (lc + Z.b2z bn + Z.b2z be + Z.b2z br)
       /\ s' = Mbs.set_references rd (Mbs.set_elems ed (Mbs.set_nodes nd s)).

Lemma on_nodes_run (free_labels : bool) (line et ss : string) (s : Mbs.t) :
  on_nodes (assign_label free_labels line et ss) s
  = match line_value line with
    | Some l =>
        let r := relabel l (label_text free_labels line et ss)
                         (Mbs.nodes s) in
        (Ok (fst r), Mbs.set_nodes (snd r) s)
    | None => (Raise ValueError, s)
    end.
Proof.
  unfold on_nodes. rewrite assign_label_run.
  destruct (line_value line); [reflexivity|]. now rewrite set_nodes_same.
Qed.

Lemma on_elems_run (free_labels : bool) (line et ss : string) (s : Mbs.t) :
  on_elems (assign_label free_labels line et ss) s
  = match line_value line with
    | Some l =>
        let r := relabel l (label_text free_labels line et ss)
                         (Mbs.elems s) in
        (Ok (fst r), Mbs.set_elems (snd r) s)
    | None => (Raise ValueError, s)
    end.
Proof.
  unfold on_elems. rewrite assign_label_run.
  destruct (line_value line); [reflexivity|]. now rewrite set_elems_same.
Qed.

Lemma on_refs_run (free_labels : bool) (line et ss : string) (s : Mbs.t) :
  on_refs (assign_label free_labels line et ss) s
  = match line_value line with
    | Some l =>
        let r := relabel l (label_text free_labels line et ss)
                         (Mbs.references s) in
        (Ok (fst r), Mbs.set_references (snd r) s)
    | None => (Raise ValueError, s)
    end.
Proof.
  unfold on_refs. rewrite assign_label_run.
  destruct (line_value line); [reflexivity|].
  now rewrite set_references_same.
Qed.

Lemma touched_relabel {A} `{Labelled A} (l : Z) (str : string) (d : list A) :
  touched l d (fst (relabel l str d), snd (relabel l str d)).
Proof. right. exists str. now destruct (relabel l str d). Qed.

Lemma touched_none {A} `{Labelled A} (l : Z) (d : list A) :
  touched l d (false, d).
Proof. now left. Qed.

#[local] Hint Resolve touched_relabel touched_none : core.

Ltac outcome_raise H :=
  cbn [ret raise] in H; injection H as <- <-; right; left; repeat split; auto.

Ltac outcome_skip H :=
  cbn [ret raise] in H; injection H as <- <-; left; split; reflexivity.

Lemma resolve_free_outcome (line : string) (lc : Z) (s : Mbs.t)
      (r : res Z) (s' : Mbs.t) :
  resolve_free line lc s = (r, s') -> line_outcome line lc s r s'.
Proof.
  unfold resolve_free. intros H.
  destruct (first_match set_strings_any line) as [ss|]; [|outcome_skip H].
  unfold bind at 1 in H. rewrite on_nodes_run in H.
  destruct (line_value line) as [l|] eqn:El; [|outcome_raise H].
  cbv zeta in H. unfold bind at 1 in H. rewrite on_elems_run, El in H.
  cbv zeta in H. unfold bind at 1 in H. rewrite on_refs_run, El in H.
  cbv zeta in H.
  cbn [ret Mbs.elems Mbs.references Mbs.set_nodes Mbs.set_elems] in H.
  injection H as <- <-. right. right. exists l.
  exists (fst (relabel l (label_text true line "" ss) (Mbs.nodes s))),
         (snd (relabel l (label_text true line "" ss) (Mbs.nodes s))),
         (fst (relabel l (label_text true line "" ss) (Mbs.elems s))),
         (snd (relabel l (label_text true line "" ss) (Mbs.elems s))),
         (fst (relabel l (label_text true line "" ss) (Mbs.references s))),
         (snd (relabel l (label_text true line "" ss) (Mbs.references s))).
  repeat split; auto; try (unfold bump; reflexivity).
Qed.

Lemma resolve_standard_outcome (line : string) (lc : Z) (s : Mbs.t)
      (r : res Z) (s' : Mbs.t) :
  resolve_standard line lc s = (r, s') -> line_outcome line lc s r s'.
Proof.
  unfold resolve_standard. intros H.
  destruct (first_match set_strings_node line) as [ss|].
  { unfold bind at 1 in H. rewrite on_nodes_run in H.
    destruct (line_value line) as [l|] eqn:El; [|outcome_raise H].
    cbv beta iota zeta in H. unfold ret in H.
    apply pair_equal_spec in H. destruct H as [<- <-].
    right. right. exists l.
    exists (fst (relabel l (label_text false line "node" ss) (Mbs.nodes s))),
           (snd (relabel l (label_text false line "node" ss) (Mbs.nodes s))),
           false, (Mbs.elems s), false, (Mbs.references s).
    repeat split; auto;
      try (unfold bump; cbn [Z.b2z]; apply f_equal; lia);
      now rewrite ?set_nodes_same, ?set_elems_same, ?set_references_same. }
  destruct (first_match set_strings_joint line) as [ss|].
  { unfold bind at 1 in H. rewrite on_elems_run in H.
    destruct (line_value line) as [l|] eqn:El; [|outcome_raise H].
    cbv beta iota zeta in H. unfold ret in H.
    apply pair_equal_spec in H. destruct H as [<- <-].
    right. right. exists l.
    exists false, (Mbs.nodes s),
           (fst (relabel l (label_text false line "joint" ss) (Mbs.elems s))),
           (snd (relabel l (label_text false line "joint" ss) (Mbs.elems s))),
           false, (Mbs.references s).
    repeat split; auto;
      try (unfold bump; cbn [Z.b2z]; apply f_equal; lia);
      now rewrite ?set_nodes_same, ?set_elems_same, ?set_references_same. }
  destruct (first_match set_strings_beam line) as [ss|].
  { unfold bind at 1 in H. rewrite on_elems_run in H.
    destruct (line_value line) as [l|] eqn:El; [|outcome_raise H].
    cbv beta iota zeta in H. unfold ret in H.
    apply pair_equal_spec in H. destruct H as [<- <-].
    right. right. exists l.
    exists false, (Mbs.nodes s),
           (fst (relabel l (label_text false line "beam" ss) (Mbs.elems s))),
           (snd (relabel l (label_text false line "beam" ss) (Mbs.elems s))),
           false, (Mbs.references s).
    repeat split; auto;
      try (unfold bump; cbn [Z.b2z]; apply f_equal; lia);
      now rewrite ?set_nodes_same, ?set_elems_same, ?set_references_same. }
  destruct (first_match set_strings_refs line) as [ss|]; [|outcome_skip H].
  unfold bind at 1 in H. rewrite on_refs_run in H.
  destruct (line_value line) as [l|] eqn:El; [|outcome_raise H].
  cbv beta iota zeta in H. unfold ret in H.
  apply pair_equal_spec in H. destruct H as [<- <-].
  right. right. exists l.
  exists false, (Mbs.nodes s), false, (Mbs.elems s),
         (fst (relabel l (label_text false line "ref" ss) (Mbs.references s))),
         (snd (relabel l (label_text false line "ref" ss) (Mbs.references s))).
  repeat split; auto;
    try (unfold bump; cbn [Z.b2z]; apply f_equal; lia);
    now rewrite ?set_nodes_same, ?set_elems_same, ?set_references_same.
Qed.


Lemma annotated_refl {A} `{Labelled A} (lines : list string) (a : A) :
  annotated lines a a.
Proof. now left. Qed.

Lemma annotated_trans {A} `{LabelledLaws A} (l1 l2 : list string)
      (a b c : A) :
  annotated l1 a b -> annotated l2 b c -> annotated (l1 ++ l2) a c.
Proof.
  intros [->|(line1 & str1 & Hin1 & Hv1 & ->)].
  - intros [->|(line2 & str2 & Hin2 & Hv2 & ->)]; [now left|].
    right. exists line2, str2. repeat split; auto.
    apply in_or_app. now right.
  - intros [->|(line2 & str2 & Hin2 & Hv2 & ->)].
    + right. exists line1, str1. repeat split; auto.
      apply in_or_app. now left.
    + right. exists line1, str2. repeat split; auto.
      * apply in_or_app. now left.
      * apply with_with.
Qed.

Lemma Forall2_annotated_refl {A} `{Labelled A} (lines : list string)
      (d : list A) :
  Forall2 (annotated lines) d d.
Proof. induction d; constructor; auto using annotated_refl. Qed.

Lemma Forall2_annotated_trans {A} `{LabelledLaws A} (l1 l2 : list string)
      (d1 d2 d3 : list A) :
  Forall2 (annotated l1) d1 d2 -> Forall2 (annotated l2) d2 d3 ->
  Forall2 (annotated (l1 ++ l2)) d1 d3.
Proof.
  intros H12. revert d3. induction H12 as [|a b d1 d2 Hab _ IH];
    intros d3 H23; inversion H23; subst; constructor.
  - eapply annotated_trans; eauto.
  - now apply IH.
Qed.

Lemma annotates_refl (lines : list string) (s : Mbs.t) :
  annotates lines s s.
Proof.
  exists (Mbs.nodes s), (Mbs.elems s), (Mbs.references s).
  repeat split; try apply Forall2_annotated_refl. now destruct s.
Qed.

Lemma annotates_trans (l1 l2 : list string) (s1 s2 s3 : Mbs.t) :
  annotates l1 s1 s2 -> annotates l2 s2 s3 -> annotates (l1 ++ l2) s1 s3.
Proof.
  intros (nd & ed & rd & -> & Hn & He & Hr)
         (nd' & ed' & rd' & -> & Hn' & He' & Hr').
  cbn in Hn', He', Hr'.
  exists nd', ed', rd'. split; [now destruct s1|].
  repeat split; eapply Forall2_annotated_trans; eauto.
Qed.

Lemma touched_annotated {A} `{LabelledLaws A} (line : string) (l : Z)
      (d : list A) (b : bool) (d' : list A) :
  line_value line = Some l ->
  touched l d (b, d') ->
  Forall2 (annotated [line]) d d'.
Proof.
  intros Hv Ht. eapply Forall2_impl; [|exact (touched_frame _ _ _ _ Ht)].
  cbn. intros a c [->|(Hl & str & ->)]; [now left|].
  right. exists line, str. repeat split; [now left|congruence].
Qed.

(** What one line does to the counter and to the scene data. *)
Lemma line_outcome_effect (line : string) (lc : Z) (s : Mbs.t)
      (r : res Z) (s' : Mbs.t) :
  line_outcome line lc s r s' ->
  annotates [line] s s'
  /\ (forall lc', r = Ok lc' -> lc <= lc' /\ (lc' = lc <-> s' = s))
  /\ (forall e, r = Raise e ->
        e = ValueError /\ line_value line = None /\ s' = s)
  /\ (line_value line <> None -> exists lc', r = Ok lc').
Proof.
  intros [(-> & ->)|[(Hv & -> & ->)|
    (l & bn & nd & be & ed & br & rd & Hv & Hn & He & Hr & -> & ->)]].
  - split; [apply annotates_refl|]. repeat split; eauto; try discriminate.
    + injection H as <-. lia.
    + now injection H as <-.
  - split; [apply annotates_refl|]. repeat split; try discriminate;
      try congruence.
  - split.
    { exists nd, ed, rd. repeat split; eapply touched_annotated; eauto. }
    pose proof (touched_flag _ _ _ _ Hn) as Fn.
    pose proof (touched_flag _ _ _ _ He) as Fe.
    pose proof (touched_flag _ _ _ _ Hr) as Fr.
    assert (Hsame : Mbs.set_references rd
                      (Mbs.set_elems ed (Mbs.set_nodes nd s)) = s
                    <-> nd = Mbs.nodes s /\ ed = Mbs.elems s
                        /\ rd = Mbs.references s).
    { split.
      - intros E. repeat split.
        + now apply (f_equal Mbs.nodes) in E.
        + now apply (f_equal Mbs.elems) in E.
        + now apply (f_equal Mbs.references) in E.
      - intros (-> & -> & ->). now destruct s. }
    repeat split; try discriminate; eauto.
    + injection H as <-. destruct bn, be, br; cbn; lia.
    + injection H as <-. intros E. apply Hsame.
      destruct bn, be, br; cbn in E; try lia; tauto.
    + injection H as <-. intros E. apply Hsame in E.
      destruct E as (En & Ee & Er).
      apply Fn in En. apply Fe in Ee. apply Fr in Er. subst. cbn. lia.
Qed.

Lemma resolve_line_outcome (free_labels : bool) (line : string) (lc : Z)
      (s : Mbs.t) (r : res Z) (s' : Mbs.t) :
  (if free_labels then resolve_free line lc s
   else resolve_standard line lc s) = (r, s') ->
  line_outcome line lc s r s'.
Proof.
  destruct free_labels;
    [apply resolve_free_outcome | apply resolve_standard_outcome].
Qed.

Lemma resolve_lines_cons (free_labels : bool) (line : string)
      (rest : list string) (lc : Z) (s : Mbs.t) :
  resolve_lines free_labels (line :: rest) lc s
  = match (if free_labels then resolve_free line lc s
           else resolve_standard line lc s) with
    | (Ok lc', s') => resolve_lines free_labels rest lc' s'
    | (Raise e, s') => (Raise e, s')
    end.
Proof. cbn [resolve_lines]. unfold bind. now destruct free_labels. Qed.

(** The whole log: the records are annotated and nothing else is touched;
    the counter stays where it was exactly when no line, at the time it
    was read, changed the scene data; the only exception is [ValueError],
    from a line whose right-hand side is no integer. *)
Lemma resolve_lines_effect (free_labels : bool) (lines : list string) :
  forall (lc : Z) (s : Mbs.t) (r : res Z) (s' : Mbs.t),
    resolve_lines free_labels lines lc s = (r, s') ->
    annotates lines s s'
    /\ (forall lc', r = Ok lc' ->
          lc <= lc'
          /\ (lc' = lc -> s' = s)
          /\ (lc' = lc <->
              forall pre line post, lines = (pre ++ line :: post)%list ->
                snd (resolve_lines free_labels (pre ++ [line]) lc s)
                = snd (resolve_lines free_labels pre lc s)))
    /\ (forall e, r = Raise e ->
          e = ValueError
          /\ exists line, In line lines /\ line_value line = None)
    /\ ((forall line, In line lines -> line_value line <> None) ->
        exists lc', r = Ok lc').
Proof.
  induction lines as [|line rest IH]; intros lc s r s' H.
  - cbn in H. injection H as <- <-.
    split; [apply annotates_refl|]. repeat split; try discriminate; eauto.
    + injection H as <-. lia.
    + intros _ pre line post E. now destruct pre.
    + injection H as <-. reflexivity.
  - rewrite resolve_lines_cons in H.
    destruct (if free_labels then resolve_free line lc s
              else resolve_standard line lc s) as [r1 s1] eqn:E1.
    pose proof (resolve_line_outcome _ _ _ _ _ _ E1) as Ho.
    apply line_outcome_effect in Ho.
    destruct Ho as (Ha1 & Hok1 & Hraise1 & Htot1).
    destruct r1 as [lc1|e1].
    + destruct (Hok1 lc1 eq_refl) as (Hle1 & Hiff1).
      destruct (IH _ _ _ _ H) as (Ha & Hok & Hraise & Htot).
      split; [exact (annotates_trans [line] rest _ _ _ Ha1 Ha)|].
      split; [|split].
      * intros lc' ->. destruct (Hok lc' eq_refl) as (Hle & Hsame & Hiff).
        split; [lia|]. split.
        { intros ->. assert (lc1 = lc) by lia. subst lc1.
          rewrite (Hsame eq_refl). now apply Hiff1. }
        split.
        { intros ->. assert (lc1 = lc) by lia. subst lc1.
          assert (s1 = s) by now apply Hiff1. subst s1.
          intros pre l post E. destruct pre as [|p pre].
          - cbn in E. injection E as <- <-. cbn [app].
            rewrite resolve_lines_cons, E1. reflexivity.
          - cbn in E. injection E as <- ->. cbn [app].
            rewrite !resolve_lines_cons, E1.
            now apply (proj1 Hiff eq_refl pre l post). }
        { intros Hall.
          assert (Es : s1 = s).
          { specialize (Hall [] line rest eq_refl). cbn [app] in Hall.
            rewrite resolve_lines_cons, E1 in Hall. exact Hall. }
          assert (lc1 = lc) by now apply Hiff1. subst lc1 s1.
          apply Hiff. intros pre l post ->.
          specialize (Hall (line :: pre) l post eq_refl). cbn [app] in Hall.
          now rewrite !resolve_lines_cons, E1 in Hall. }
      * intros e ->. destruct (Hraise e eq_refl) as (-> & l & Hin & Hv).
        split; [reflexivity|]. exists l. split; [now right|exact Hv].
      * intros Hall. apply Htot. intros l Hin. apply Hall. now right.
    + injection H as <- <-.
      destruct (Hraise1 e1 eq_refl) as (-> & Hv & ->).
      split; [apply annotates_refl|]. split; [intros lc' [=]|]. split.
      * intros e [= <-]. split; [reflexivity|].
        exists line. split; [now left|exact Hv].
      * intros Hall. exfalso. apply (Hall line); [now left|exact Hv].
Qed.



Lemma update_at_eq {A} (k : nat) (f : A -> A) (l : list A) (a : A) :
  nth_error l k = Some a -> nth_error (update_at k f l) k = Some (f a).
Proof.
  revert k; induction l as [|x l IH]; intros [|k]; cbn; try discriminate.
  - now intros [= ->].
  - apply IH.
Qed.

Lemma update_at_neq {A} (k j : nat) (f : A -> A) (l : list A) :
  j <> k -> nth_error (update_at k f l) j = nth_error l j.
Proof.
  revert k j; induction l as [|x l IH]; intros [|k] [|j] Hne; cbn;
    try reflexivity; try congruence.
  apply IH. congruence.
Qed.

Lemma find_index_nth {A} (p : A -> bool) (l : list A) (k : nat) :
  find_index p l = Some k -> exists a, nth_error l k = Some a /\ p a = true.
Proof.
  revert k; induction l as [|x l IH]; intros k; cbn; [discriminate|].
  destruct (p x) eqn:Ep.
  - intros [= <-]. now exists x.
  - destruct (find_index p l) as [j|]; [|discriminate].
    intros [= <-]. now apply IH.
Qed.

Import Samples.

Lemma label_line_match :
  first_match set_strings_node label_line = Some "  integer Node_".
Proof. vm_compute. reflexivity. Qed.

Lemma label_line_value : line_value label_line = Some 17.
Proof. vm_compute. reflexivity. Qed.

Lemma label_line_text :
  label_text false label_line "node" "  integer Node_" = "Node_42".
Proof. vm_compute. reflexivity. Qed.

Lemma resolve_label_line (s : Mbs.t) :
  resolve_standard label_line 0 s
  = (Ok (Z.b2z (fst (relabel 17 "Node_42" (Mbs.nodes s)))),
     Mbs.set_nodes (snd (relabel 17 "Node_42" (Mbs.nodes s))) s).
Proof.
  unfold resolve_standard. rewrite label_line_match. unfold bind.
  rewrite on_nodes_run, label_line_value, label_line_text. reflexivity.
Qed.






(** A line can change a label that a later line changes back: the pass
    then returns [LABELS_UPDATED] over a registry that is as it was. *)
Example labels_changed_twice :
  let s := Mbs.set_nodes
             [Node.set_string_label "Node_b" (known_node 17 "Node17")]
             (scene [] 0) in
  assign_labels (label_files ["  integer Node_a = 17";
                              "  integer Node_b = 17"]) s
  = (Ok LABELS_UPDATED, s).
Proof. vm_compute. reflexivity. Qed.

End LabelResolverFacts.

(** ** Facts on the beam declarations *)

Module BeamLibFacts.

Import BeamLib.

Lemma nth_update_at_eq {A} (k : nat) (f : A -> A) (l : list A) (a : A) :
  nth_error l k = Some a -> nth_error (update_at k f l) k = Some (f a).
Proof.
  revert k; induction l as [|x l IH]; intros [|k]; cbn; try discriminate.
  - now intros [= ->].
  - apply IH.
Qed.

Lemma nth_update_at_neq {A} (k j : nat) (f : A -> A) (l : list A) :
  j <> k -> nth_error (update_at k f l) j = nth_error l j.
Proof.
  revert k j; induction l as [|x l IH]; intros [|k] [|j] Hne; cbn;
    try reflexivity; try congruence.
  apply IH. congruence.
Qed.

Lemma update_at_twice {A} (k : nat) (f g : A -> A) (l : list A) :
  update_at k g (update_at k f l) = update_at k (fun a => g (f a)) l.
Proof.
  revert k; induction l as [|x l IH]; intros [|k]; cbn; auto.
  now rewrite IH.
Qed.

Lemma update_at_same {A} (k : nat) (l : list A) (a : A) :
  nth_error l k = Some a -> update_at k (fun _ => a) l = l.
Proof.
  revert k; induction l as [|x l IH]; intros [|k]; cbn; auto.
  - now intros [= ->].
  - intros Hk. now rewrite IH.
Qed.

Lemma update_at_last {A} (l : list A) (a : A) (f : A -> A) :
  update_at (List.length l) f (l ++ [a]) = (l ++ [f a])%list.
Proof. induction l as [|x l IH]; cbn; [reflexivity | now rewrite IH]. Qed.

Section BeamFacts.

Variable float : string -> option Qc.
Variable default_elem : Elem.t.
Variable default_node_ref : Z.
Variable default_offset : vec3.

#[local] Abbreviation parsed_vector := (BeamLib.parsed_vector float).
#[local] Abbreviation vector_field := (BeamLib.vector_field float).

Lemma with_elem_update (k : nat) (f : Elem.t -> Elem.t) (el : Elem.t)
      (ed : list Elem.t) :
  update_at k f (with_elem k el ed) = with_elem k (f el) ed.
Proof. unfold with_elem. now rewrite update_at_twice. Qed.

Lemma with_elem_nth (k : nat) (el : Elem.t) (ed : list Elem.t) :
  (k < List.length ed)%nat -> nth_error (with_elem k el ed) k = Some el.
Proof.
  intros Hk. destruct (nth_error ed k) as [a|] eqn:Ea.
  - unfold with_elem. now rewrite (nth_update_at_eq _ _ _ _ Ea).
  - apply nth_error_None in Ea. lia.
Qed.

Lemma field_run (rw : row) (i : nat) (tok : string) (ed : list Elem.t) :
  nth_error rw i = Some tok -> field rw i ed = (Ok tok, ed).
Proof. unfold field. now intros ->. Qed.

Lemma int_field_run (rw : row) (i : nat) (n : Z) (ed : list Elem.t) :
  parsed_int rw i = Some n -> int_field rw i ed = (Ok n, ed).
Proof.
  unfold parsed_int, int_field, field, bind.
  destruct (nth_error rw i) as [tok|]; [|discriminate].
  cbn [lift ret]. now intros ->.
Qed.

Lemma float_field_run (rw : row) (i : nat) (x : Qc) (ed : list Elem.t) :
  parsed_float float rw i = Some x -> float_field float rw i ed = (Ok x, ed).
Proof.
  unfold parsed_float, float_field, field, bind.
  destruct (nth_error rw i) as [tok|]; [|discriminate].
  cbn [lift ret]. now intros ->.
Qed.

Lemma vector_field_run (rw : row) (i : nat) (v : vec3) (ed : list Elem.t) :
  parsed_vector rw i = Some v -> vector_field rw i ed = (Ok v, ed).
Proof.
  unfold BeamLib.parsed_vector, BeamLib.vector_field.
  destruct (parsed_float float rw i) as [x|] eqn:Ex; [|discriminate].
  destruct (parsed_float float rw (i + 1)) as [y|] eqn:Ey; [|discriminate].
  destruct (parsed_float float rw (i + 2)) as [z|] eqn:Ez; [|discriminate].
  intros [= <-]. unfold bind.
  rewrite (float_field_run _ _ _ _ Ex), (float_field_run _ _ _ _ Ey),
    (float_field_run _ _ _ _ Ez).
  reflexivity.
Qed.

Lemma set_field_run (k : nat) (f : Elem.t -> Elem.t) (el : Elem.t)
      (ed : list Elem.t) :
  set_field k f (with_elem k el ed) = (Ok tt, with_elem k (f el) ed).
Proof. unfold set_field, modify. now rewrite with_elem_update. Qed.

Lemma set_node_run (k i : nat) (v : E Z) (x : Z) (el : Elem.t)
      (ed : list Elem.t) :
  (k < List.length ed)%nat ->
  v (with_elem k el ed) = (Ok x, with_elem k el ed) ->
  (i < List.length (Elem.nodes el))%nat ->
  set_node k i v (with_elem k el ed)
  = (Ok tt,
     with_elem k (Elem.set_nodes (update_at i (fun _ => x) (Elem.nodes el))
                                 el) ed).
Proof.
  intros Hk Hv Hi. unfold set_node. unfold bind at 1. rewrite Hv.
  unfold bind at 1. cbn [get]. unfold bind at 1.
  rewrite (with_elem_nth _ _ _ Hk). cbn [lift ret].
  apply Nat.ltb_lt in Hi. rewrite Hi. now rewrite set_field_run.
Qed.

Lemma set_offset_run (k i : nat) (v : E vec3) (x : vec3) (el : Elem.t)
      (ed : list Elem.t) :
  (k < List.length ed)%nat ->
  v (with_elem k el ed) = (Ok x, with_elem k el ed) ->
  (i < List.length (Elem.offsets el))%nat ->
  set_offset k i v (with_elem k el ed)
  = (Ok tt,
     with_elem k (Elem.set_offsets
                    (update_at i (fun _ => x) (Elem.offsets el)) el) ed).
Proof.
  intros Hk Hv Hi. unfold set_offset. unfold bind at 1. rewrite Hv.
  unfold bind at 1. cbn [get]. unfold bind at 1.
  rewrite (with_elem_nth _ _ _ Hk). cbn [lift ret].
  apply Nat.ltb_lt in Hi. rewrite Hi. now rewrite set_field_run.
Qed.


Ltac elem_fields :=
  cbn [Elem.nodes Elem.offsets Elem.is_imported Elem.mbclass Elem.type
       Elem.name Elem.int_label Elem.string_label Elem.import_function
       Elem.info_draw Elem.update Elem.blender_object
       Elem.set_nodes Elem.set_offsets Elem.set_is_imported
       Elem.set_mbclass Elem.set_type Elem.set_int_label Elem.set_name
       Elem.set_import_function Elem.set_info_draw Elem.set_update].

Ltac solve_len :=
  elem_fields; rewrite ?LogParserFacts.length_update_at, ?length_app;
  cbn [List.length Nat.add]; lia.

(** The update path, step by step. *)
Lemma update_beam3_entry_run (rw : row) (k : nat) (el : Elem.t)
      (ed : list Elem.t) (n2 n6 n10 : Z) (v3 v7 v11 : vec3) :
  nth_error ed k = Some el ->
  (3 <= List.length (Elem.nodes el))%nat ->
  (2 <= List.length (Elem.offsets el))%nat ->
  parsed_int rw 2 = Some n2 ->
  parsed_int rw 6 = Some n6 ->
  parsed_int rw 10 = Some n10 ->
  parsed_vector rw 3 = Some v3 ->
  parsed_vector rw 7 = Some v7 ->
  parsed_vector rw 11 = Some v11 ->
  update_beam3_entry float rw k ed
  = (Ok true,
     with_elem k
       (Elem.set_is_imported true
          (Elem.set_mbclass "elem.beam"
             (Elem.set_offsets
                (update_at 1 (fun _ => v11)
                   (update_at 1 (fun _ => v7)
                      (update_at 0 (fun _ => v3) (Elem.offsets el))))
                (Elem.set_nodes
                   (update_at 2 (fun _ => n10)
                      (update_at 1 (fun _ => n6)
                         (update_at 0 (fun _ => n2) (Elem.nodes el))))
                   (Elem.set_is_imported false el)))))
       ed).
Proof.
  intros Hel Hn Ho H2 H6 H10 H3 H7 H11.
  assert (Hk : (k < List.length ed)%nat).
  { apply nth_error_Some. congruence. }
  transitivity (update_beam3_entry float rw k (with_elem k el ed)).
  { unfold with_elem. now rewrite (update_at_same _ _ _ Hel). }
  unfold update_beam3_entry.
  unfold bind at 1. rewrite set_field_run.
  unfold bind at 1.
  rewrite (set_node_run k 0 _ n2 _ ed Hk (int_field_run _ _ _ _ H2))
    by solve_len.
  unfold bind at 1.
  rewrite (set_node_run k 1 _ n6 _ ed Hk (int_field_run _ _ _ _ H6))
    by solve_len.
  unfold bind at 1.
  rewrite (set_node_run k 2 _ n10 _ ed Hk (int_field_run _ _ _ _ H10))
    by solve_len.
  unfold bind at 1.
  rewrite (set_offset_run k 0 _ v3 _ ed Hk (vector_field_run _ _ _ _ H3))
    by solve_len.
  unfold bind at 1.
  rewrite (set_offset_run k 1 _ v7 _ ed Hk (vector_field_run _ _ _ _ H7))
    by solve_len.
  unfold bind at 1.
  rewrite (set_offset_run k 1 _ v11 _ ed Hk (vector_field_run _ _ _ _ H11))
    by solve_len.
  unfold bind at 1. rewrite set_field_run.
  unfold bind at 1. rewrite set_field_run.
  destruct el. reflexivity.
Qed.


(** The creation path, step by step; a fresh element has no node and no
    offset yet. *)
Lemma create_beam3_entry_run (rw : row) (ed : list Elem.t)
      (l n2 n6 n10 : Z) (v3 v7 v11 : vec3) :
  Elem.nodes default_elem = [] ->
  Elem.offsets default_elem = [] ->
  parsed_int rw 1 = Some l ->
  parsed_int rw 2 = Some n2 ->
  parsed_int rw 6 = Some n6 ->
  parsed_int rw 10 = Some n10 ->
  parsed_vector rw 3 = Some v3 ->
  parsed_vector rw 7 = Some v7 ->
  parsed_vector rw 11 = Some v11 ->
  create_beam3_entry float default_elem default_node_ref default_offset rw ed
  = (Ok false,
     (ed ++ [Elem.mk ("beam3_" ++ Py.str l) l
                     (Elem.string_label default_elem) "beam3" "elem.beam"
                     [n2; n6; n10] [v3; v7; v11]
                     "blendyn.import_beam3" "beam3_info_draw" "update_beam3"
                     (Elem.blender_object default_elem) true])%list).
Proof.
  intros Hn0 Ho0 H1 H2 H6 H10 H3 H7 H11.
  unfold create_beam3_entry. unfold bind at 1. cbn [get].
  unfold bind at 1. cbn [modify].
  set (ed2 := (ed ++ [default_elem])%list).
  set (k := List.length ed).
  assert (Hk : (k < List.length ed2)%nat).
  { subst k ed2. rewrite length_app. cbn. lia. }
  assert (Hstart : ed2 = with_elem k default_elem ed2).
  { subst k ed2. unfold with_elem. now rewrite update_at_last. }
  rewrite Hstart.
  unfold bind at 1. rewrite set_field_run.
  unfold bind at 1. rewrite set_field_run.
  unfold bind at 1. rewrite (int_field_run _ _ _ _ H1).
  unfold bind at 1. rewrite set_field_run.
  unfold add_node, add_offset.
  unfold bind at 1. rewrite set_field_run.
  unfold bind at 1.
  rewrite (set_node_run k 0 _ n2 _ ed2 Hk (int_field_run _ _ _ _ H2))
    by (elem_fields; rewrite Hn0; cbn; lia).
  unfold bind at 1. rewrite set_field_run.
  unfold bind at 1.
  rewrite (set_offset_run k 0 _ v3 _ ed2 Hk (vector_field_run _ _ _ _ H3))
    by (elem_fields; rewrite Ho0; cbn; lia).
  unfold bind at 1. rewrite set_field_run.
  unfold bind at 1.
  rewrite (set_node_run k 1 _ n6 _ ed2 Hk (int_field_run _ _ _ _ H6))
    by (elem_fields; rewrite Hn0; cbn; lia).
  unfold bind at 1. rewrite set_field_run.
  unfold bind at 1.
  rewrite (set_offset_run k 1 _ v7 _ ed2 Hk (vector_field_run _ _ _ _ H7))
    by (elem_fields; rewrite Ho0; cbn; lia).
  unfold bind at 1. rewrite set_field_run.
  unfold bind at 1.
  rewrite (set_node_run k 2 _ n10 _ ed2 Hk (int_field_run _ _ _ _ H10))
    by (elem_fields; rewrite Hn0; cbn; lia).
  unfold bind at 1. rewrite set_field_run.
  unfold bind at 1.
  rewrite (set_offset_run k 2 _ v11 _ ed2 Hk (vector_field_run _ _ _ _ H11))
    by (elem_fields; rewrite Ho0; cbn; lia).
  unfold bind at 1. rewrite set_field_run.
  unfold bind at 1. rewrite set_field_run.
  unfold bind at 1. rewrite set_field_run.
  unfold bind at 1. rewrite set_field_run.
  unfold bind at 1. rewrite set_field_run.
  cbn [ret]. f_equal.
  subst k ed2. unfold with_elem. rewrite update_at_last. f_equal. f_equal.
  elem_fields. rewrite Hn0, Ho0. reflexivity.
Qed.

(** C10. On a declaration of a beam of three nodes that the registry
    holds already, [parse_beam3] writes the vector of the columns 11 to
    13 into the second offset, over the vector of the columns 7 to 9 it
    has just stored there, and leaves the third offset as it was; on a
    declaration of a beam the registry does not hold, the third offset of
    the new element is the vector of the columns 11 to 13. *)
Theorem beam3_reimport_third_offset
        (rw : row) (ed : list Elem.t) (key : string)
        (l n2 n6 n10 : Z) (v3 v7 v11 : vec3) :
  nth_error rw 1 = Some key ->
  parsed_int rw 1 = Some l ->
  parsed_int rw 2 = Some n2 ->
  parsed_int rw 6 = Some n6 ->
  parsed_int rw 10 = Some n10 ->
  parsed_vector rw 3 = Some v3 ->
  parsed_vector rw 7 = Some v7 ->
  parsed_vector rw 11 = Some v11 ->
  (forall k el,
      find_index (elem_named ("beam3_" ++ key)) ed = Some k ->
      nth_error ed k = Some el ->
      (3 <= List.length (Elem.nodes el))%nat ->
      (2 <= List.length (Elem.offsets el))%nat ->
      exists el',
        parse_beam3 float default_elem default_node_ref default_offset rw ed
        = (Ok true, with_elem k el' ed)
        /\ Elem.offsets el'
           = update_at 1 (fun _ => v11)
               (update_at 1 (fun _ => v7)
                  (update_at 0 (fun _ => v3) (Elem.offsets el)))
        /\ nth_error (Elem.offsets el') 1 = Some v11
        /\ nth_error (Elem.offsets el') 2 = nth_error (Elem.offsets el) 2)
  /\ (find_index (elem_named ("beam3_" ++ key)) ed = None ->
      Elem.nodes default_elem = [] ->
      Elem.offsets default_elem = [] ->
      exists el',
        parse_beam3 float default_elem default_node_ref default_offset rw ed
        = (Ok false, (ed ++ [el'])%list)
        /\ Elem.offsets el' = [v3; v7; v11]
        /\ nth_error (Elem.offsets el') 2 = Some v11).
Proof.
  intros Hkey H1 H2 H6 H10 H3 H7 H11. split.
  - intros k el Hfind Hel Hn Ho.
    eexists. split; [|split; [|split]].
    + unfold parse_beam3. unfold bind at 1. rewrite (field_run _ _ _ _ Hkey).
      unfold bind at 1. cbn [get]. rewrite Hfind.
      apply (update_beam3_entry_run rw k el ed n2 n6 n10 v3 v7 v11);
        assumption.
    + reflexivity.
    + elem_fields.
      destruct (Elem.offsets el) as [|o0 [|o1 os]]; cbn in Ho; try lia.
      reflexivity.
    + elem_fields.
      destruct (Elem.offsets el) as [|o0 [|o1 os]]; cbn in Ho; try lia.
      reflexivity.
  - intros Hfind Hn0 Ho0.
    eexists. split; [|split].
    + unfold parse_beam3. unfold bind at 1. rewrite (field_run _ _ _ _ Hkey).
      unfold bind at 1. cbn [get]. rewrite Hfind.
      apply (create_beam3_entry_run rw ed l n2 n6 n10 v3 v7 v11);
        assumption.
    + reflexivity.
    + reflexivity.
Qed.

End BeamFacts.

Import Samples.

Lemma beam3_reimport_third_offset_witness :
  exists el',
    Samples.parse_beam3 beam3_decl_moved [beam3_7]
    = (Ok true, with_elem 0 el' [beam3_7])
    /\ nth_error (Elem.offsets el') 1 = Some (qz 6, qz 0, qz 0)
    /\ nth_error (Elem.offsets el') 2 = Some (qz 3, qz 0, qz 0).
Proof.
  assert (H11 : parsed_vector float_of_int beam3_decl_moved 11
                = Some (qz 6, qz 0, qz 0)) by (vm_compute; reflexivity).
  assert (H7 : parsed_vector float_of_int beam3_decl_moved 7
               = Some (qz 5, qz 0, qz 0)) by (vm_compute; reflexivity).
  assert (H3 : parsed_vector float_of_int beam3_decl_moved 3
               = Some (qz 4, qz 0, qz 0)) by (vm_compute; reflexivity).
  destruct (proj1 (beam3_reimport_third_offset
              float_of_int blank_elem 0 zero3
              beam3_decl_moved [beam3_7] "7" 7 1 2 3 _ _ _
              eq_refl eq_refl eq_refl eq_refl eq_refl H3 H7 H11)
              0%nat beam3_7 eq_refl eq_refl)
    as (el' & Hrun & _ & Hsecond & Hthird).
  - cbn. lia.
  - cbn. lia.
  - exists el'. split; [exact Hrun|]. split; [exact Hsecond|].
    rewrite Hthird. reflexivity.
Defined.

(** The two declarations of the samples in turn: the new beam has its
    three offsets; declared anew, it keeps the third. *)
Example beam3_declared_twice :
  let r1 := Samples.parse_beam3 beam3_decl [] in
  let r2 := Samples.parse_beam3 beam3_decl_moved (snd r1) in
  r1 = (Ok false, [beam3_7])
  /\ fst r2 = Ok true
  /\ map Elem.offsets (snd r2)
     = [[(qz 4, qz 0, qz 0); (qz 6, qz 0, qz 0); (qz 3, qz 0, qz 0)]].
Proof. vm_compute. repeat split. Qed.

End BeamLibFacts.

(** ** Facts on the Motion Interpolator *)

Module InterpFacts.

Import NetCDF Interp.

#[local] Open Scope Qc_scope.

#[local] Abbreviation half := (Q2Qc (1 # 2)).

Lemma zip_add_nth (c0 c1 : Qc) (s0 s1 : list Qc) (i : nat) (x0 x1 : Qc) :
  nth_error s0 i = Some x0 ->
  nth_error s1 i = Some x1 ->
  nth_error (zip_add (np_scale c0 s0) (np_scale c1 s1)) i
  = Some (c0 * x0 + c1 * x1).
Proof.
  unfold np_scale. revert s1 i. induction s0 as [|a s0 IH]; intros [|b s1] [|i]; cbn;
    try discriminate.
  - now intros [= ->] [= ->].
  - apply IH.
Qed.

Lemma zip_add_length (c0 c1 : Qc) (s0 s1 : list Qc) :
  List.length s0 = List.length s1 ->
  List.length (zip_add (np_scale c0 s0) (np_scale c1 s1)) = List.length s0.
Proof.
  unfold np_scale. revert s1. induction s0 as [|a s0 IH]; intros [|b s1]; cbn;
    try discriminate; auto.
Qed.

Lemma zip_add_first (s0 s1 : list Qc) :
  List.length s0 = List.length s1 ->
  zip_add (np_scale 1 s0) (np_scale (1 - 1) s1) = s0.
Proof.
  unfold np_scale. revert s1. induction s0 as [|a s0 IH]; intros [|b s1]; cbn;
    try discriminate; auto.
  intros [= Hl]. rewrite (IH _ Hl). f_equal. ring.
Qed.

Lemma zip_add_second (s0 s1 : list Qc) :
  List.length s0 = List.length s1 ->
  zip_add (np_scale 0 s0) (np_scale (1 - 0) s1) = s1.
Proof.
  unfold np_scale. revert s1. induction s0 as [|a s0 IH]; intros [|b s1]; cbn;
    try discriminate; auto.
  intros [= Hl]. rewrite (IH _ Hl). f_equal. ring.
Qed.





(** *** Rotation matrices *)

Lemma bracket_weight_range (t : Qc) :
  0 <= bracket_weight t /\ bracket_weight t < 1.
Proof.
  unfold bracket_weight, Qc_of_Z, ceil. split.
  - apply Qcle_minus_iff.
    assert (H : t <= Q2Qc (inject_Z (Qceiling t))).
    { unfold Qcle. cbn [this Q2Qc]. rewrite Qred_correct. apply Qle_ceiling. }
    apply Qcle_minus_iff in H.
    now replace (Q2Qc (inject_Z (Qceiling t)) - t + - 0)
      with (Q2Qc (inject_Z (Qceiling t)) + - t) by ring.
  - apply Qclt_minus_iff.
    assert (H : Q2Qc (inject_Z (Qceiling t - 1)) < t).
    { unfold Qclt. cbn [this Q2Qc]. rewrite Qred_correct. apply Qceiling_lt. }
    apply Qclt_minus_iff in H.
    replace (1 + - (Q2Qc (inject_Z (Qceiling t)) - t))
      with (t + - Q2Qc (inject_Z (Qceiling t - 1))); [exact H|].
    apply Qc_is_canon. cbn [this Q2Qc Qcplus Qcopp Qcminus].
    rewrite !Qred_correct. unfold Z.sub. rewrite inject_Z_plus.
    generalize (inject_Z (Qceiling t)) (this t). intros a b. unfold Qeq, Qplus, Qopp, inject_Z. cbn [Qnum Qden]. lia.
Qed.

Lemma dot_comm (a b : quat) : dot a b = dot b a.
Proof. destruct a as [[[? ?] ?] ?], b as [[[? ?] ?] ?]. cbn. ring. Qed.

Lemma dot_negate (a b : quat) : dot (negate a) b = - dot a b.
Proof. destruct a as [[[? ?] ?] ?], b as [[[? ?] ?] ?]. cbn. ring. Qed.

Lemma dot_blend (w0 w1 : Qc) (a b c : quat) :
  dot (blend w0 w1 a b) c = w0 * dot a c + w1 * dot b c.
Proof.
  destruct a as [[[? ?] ?] ?], b as [[[? ?] ?] ?], c as [[[? ?] ?] ?].
  cbn. ring.
Qed.

Lemma negate_negate (a : quat) : negate (negate a) = a.
Proof.
  destruct a as [[[a0 a1] a2] a3]. cbn.
  now rewrite !Qcopp_involutive.
Qed.

Section SlerpFacts.

Variables sinf acosf sqrtf : Qc -> Qc.
Variable to_quaternion : matrix -> quat.

Lemma interp_dot_slerp_half (c : Qc) :
  fst (interp_dot_slerp sinf acosf half c)
  = snd (interp_dot_slerp sinf acosf half c).
Proof.
  assert (E : 1 - half = half) by (apply Qc_is_canon; reflexivity).
  unfold interp_dot_slerp.
  destruct (Qclt_le_dec (Qcabs c) (1 - eps)); cbn [fst snd]; now rewrite E.
Qed.

(** The quaternion that [slerp] blends with [other]: [self], or its
    opposite when the two are more than a right angle apart. *)
Lemma slerp_blend (q0 q1 : quat) (t : Qc) :
  0 <= t -> t <= 1 ->
  exists q,
    (q = q0 \/ q = negate q0) /\ 0 <= dot q q1
    /\ slerp sinf acosf q0 q1 t
       = Ok (blend (fst (interp_dot_slerp sinf acosf t (dot q q1)))
                   (snd (interp_dot_slerp sinf acosf t (dot q q1))) q q1).
Proof.
  intros H0 H1. unfold slerp.
  destruct (Qclt_le_dec t 0) as [Hlt|_].
  { exfalso. exact (Qclt_not_le _ _ Hlt H0). }
  destruct (Qclt_le_dec 1 t) as [Hlt|_].
  { exfalso. exact (Qclt_not_le _ _ Hlt H1). }
  destruct (Qclt_le_dec (dot q0 q1) 0) as [Hneg|Hpos].
  - exists (negate q0). rewrite dot_negate.
    split; [now right|]. split.
    + apply Qclt_le_weak. apply Qclt_minus_iff in Hneg.
      now replace (0 + - dot q0 q1) with (- dot q0 q1) in Hneg by ring.
    + cbv zeta.
      now destruct (interp_dot_slerp sinf acosf t (- dot q0 q1)).
  - exists q0. split; [now left|]. split; [exact Hpos|].
    cbv zeta. now destruct (interp_dot_slerp sinf acosf t (dot q0 q1)).
Qed.


End SlerpFacts.


End InterpFacts.
